(** * Audit trail: entry builder, validation, retrying insert, query filters

    A shallow embedding of the Go package [audit] (types.go, config.go,
    builder.go, mongo_repo.go, and the files that declare the
    [AuditRepository] interface and the audit service) and the
    properties of its specification.

    Conventions of the embedding:
    - Go [int], [int64] and [time.Duration] are integers of [Z]; the
      arithmetic the code performs on them wraps to 64 bits ([wrap_int]).
    - Go [string] is [string]; the string types [ActorType] and
      [AuditAction] are strings with named constants.
    - [time.Time] is the instant as a number of nanoseconds counted from
      the zero time, so that [IsZero] is comparison with 0.
    - [primitive.ObjectID] (a [12]byte array) is the 96-bit number its
      bytes spell in big-endian order.
    - [error] is an inductive type with one constructor per way the code
      builds an error; [nil] is [None].
    - [bson.M] is a finite map from strings to BSON values ([gmap]).
    - Code that talks to the store runs in the monad [M]: it threads the
      state of the world (collection, clock, pending failures, journal of
      calls) and carries a fuel budget for the one loop of the package. *)

From stdpp Require Import base option strings list gmap pretty sorting.
From Stdlib Require Import ZArith Lia.

#[local] Set Warnings "-register-all".
#[local] Open Scope Z_scope.

(* ================================================================== *)
(** ** Machine integers *)

Definition int_bits : Z := 64.
Definition max_int : Z := 2 ^ (int_bits - 1) - 1.
Definition min_int : Z := - 2 ^ (int_bits - 1).

(** Two's complement wrap-around of Go's signed 64-bit arithmetic. *)
Definition wrap_int (z : Z) : Z :=
  (z + 2 ^ (int_bits - 1)) mod 2 ^ int_bits - 2 ^ (int_bits - 1).

Definition is_int (z : Z) : Prop := min_int <= z <= max_int.

(* ================================================================== *)
(** ** types.go *)

Definition Time := Z.
Definition Duration := Z.
Definition ObjectID := N.

Definition NilObjectID : ObjectID := 0%N.
Definition ObjectID_IsZero (id : ObjectID) : bool := N.eqb id NilObjectID.
Definition Time_IsZero (t : Time) : bool := t =? 0.
(** [t.After(u)]: [t] is strictly later than [u]. *)
Definition Time_After (t u : Time) : bool := u <? t.

Definition ActorType := string.
Definition AuditAction := string.

Definition ActorTypeUser : ActorType := "user".
Definition ActorTypeSystem : ActorType := "system".
Definition ActorTypeService : ActorType := "service".
Definition ActorTypeAPI : ActorType := "api".
Definition ActorTypeAdmin : ActorType := "admin".

Definition ActionCreate : AuditAction := "create".
Definition ActionUpdate : AuditAction := "update".
Definition ActionDelete : AuditAction := "delete".
Definition ActionLogin : AuditAction := "login".
Definition ActionLogout : AuditAction := "logout".
Definition ActionView : AuditAction := "view".
Definition ActionExport : AuditAction := "export".

(** Values of Go's [any] that the examples of the package use. *)
Inductive any : Type :=
| AnyNil
| AnyString (s : string)
| AnyInt (z : Z)
| AnyBool (b : bool).

Record Actor := mkActor {
  Actor_ID : string;
  Actor_Type : ActorType;
  Actor_Name : string;
  Actor_SessionID : string
}.

Record AuditResource := mkAuditResource {
  Resource_Type : string;
  Resource_ID : string;
  Resource_Name : string
}.

Record FieldChange := mkFieldChange {
  Change_Field : string;
  Change_OldValue : any;
  Change_NewValue : any
}.

(** [Entry_Metadata] is [None] for the nil map.  A nil slice and an
    empty slice of changes behave alike under [append], [len] and
    omitempty, so [Entry_Changes] is a plain list. *)
Record AuditEntry := mkAuditEntry {
  Entry_ID : ObjectID;
  Entry_Timestamp : Time;
  Entry_Action : AuditAction;
  Entry_Actor : Actor;
  Entry_Resource : AuditResource;
  Entry_Changes : list FieldChange;
  Entry_Metadata : option (gmap string any);
  Entry_IPAddress : string;
  Entry_UserAgent : string;
  Entry_Success : bool;
  Entry_ErrorMsg : string
}.

(** The zero value [AuditEntry{}]. *)
Definition zeroActor : Actor := mkActor EmptyString EmptyString EmptyString EmptyString.
Definition zeroResource : AuditResource := mkAuditResource EmptyString EmptyString EmptyString.
Definition zeroEntry : AuditEntry :=
  mkAuditEntry NilObjectID 0 EmptyString zeroActor zeroResource [] None
               EmptyString EmptyString false EmptyString.

(** Pointer fields ([*time.Time], [*bool]) are options. *)
Record AuditQuery := mkAuditQuery {
  Query_ActorID : string;
  Query_ActorType : ActorType;
  Query_SessionID : string;
  Query_Actions : list AuditAction;
  Query_ResourceType : string;
  Query_ResourceID : string;
  Query_StartTime : option Time;
  Query_EndTime : option Time;
  Query_Success : option bool;
  Query_Limit : Z;
  Query_Offset : Z
}.

Definition zeroQuery : AuditQuery :=
  mkAuditQuery EmptyString EmptyString EmptyString [] EmptyString EmptyString
               None None None 0 0.

Record AuditQueryResult := mkAuditQueryResult {
  Result_Entries : list AuditEntry;
  Result_Total : Z;
  Result_HasMore : bool
}.

(** Field assignments [entry.F = v]. *)
Definition set_ID (v : ObjectID) (e : AuditEntry) : AuditEntry :=
  mkAuditEntry v (Entry_Timestamp e) (Entry_Action e) (Entry_Actor e)
    (Entry_Resource e) (Entry_Changes e) (Entry_Metadata e) (Entry_IPAddress e)
    (Entry_UserAgent e) (Entry_Success e) (Entry_ErrorMsg e).
Definition set_Timestamp (v : Time) (e : AuditEntry) : AuditEntry :=
  mkAuditEntry (Entry_ID e) v (Entry_Action e) (Entry_Actor e)
    (Entry_Resource e) (Entry_Changes e) (Entry_Metadata e) (Entry_IPAddress e)
    (Entry_UserAgent e) (Entry_Success e) (Entry_ErrorMsg e).
Definition set_Action (v : AuditAction) (e : AuditEntry) : AuditEntry :=
  mkAuditEntry (Entry_ID e) (Entry_Timestamp e) v (Entry_Actor e)
    (Entry_Resource e) (Entry_Changes e) (Entry_Metadata e) (Entry_IPAddress e)
    (Entry_UserAgent e) (Entry_Success e) (Entry_ErrorMsg e).
Definition set_Actor (v : Actor) (e : AuditEntry) : AuditEntry :=
  mkAuditEntry (Entry_ID e) (Entry_Timestamp e) (Entry_Action e) v
    (Entry_Resource e) (Entry_Changes e) (Entry_Metadata e) (Entry_IPAddress e)
    (Entry_UserAgent e) (Entry_Success e) (Entry_ErrorMsg e).
Definition set_Resource (v : AuditResource) (e : AuditEntry) : AuditEntry :=
  mkAuditEntry (Entry_ID e) (Entry_Timestamp e) (Entry_Action e) (Entry_Actor e)
    v (Entry_Changes e) (Entry_Metadata e) (Entry_IPAddress e)
    (Entry_UserAgent e) (Entry_Success e) (Entry_ErrorMsg e).
Definition set_Changes (v : list FieldChange) (e : AuditEntry) : AuditEntry :=
  mkAuditEntry (Entry_ID e) (Entry_Timestamp e) (Entry_Action e) (Entry_Actor e)
    (Entry_Resource e) v (Entry_Metadata e) (Entry_IPAddress e)
    (Entry_UserAgent e) (Entry_Success e) (Entry_ErrorMsg e).
Definition set_Metadata (v : option (gmap string any)) (e : AuditEntry) : AuditEntry :=
  mkAuditEntry (Entry_ID e) (Entry_Timestamp e) (Entry_Action e) (Entry_Actor e)
    (Entry_Resource e) (Entry_Changes e) v (Entry_IPAddress e)
    (Entry_UserAgent e) (Entry_Success e) (Entry_ErrorMsg e).
Definition set_IPAddress (v : string) (e : AuditEntry) : AuditEntry :=
  mkAuditEntry (Entry_ID e) (Entry_Timestamp e) (Entry_Action e) (Entry_Actor e)
    (Entry_Resource e) (Entry_Changes e) (Entry_Metadata e) v
    (Entry_UserAgent e) (Entry_Success e) (Entry_ErrorMsg e).
Definition set_UserAgent (v : string) (e : AuditEntry) : AuditEntry :=
  mkAuditEntry (Entry_ID e) (Entry_Timestamp e) (Entry_Action e) (Entry_Actor e)
    (Entry_Resource e) (Entry_Changes e) (Entry_Metadata e) (Entry_IPAddress e)
    v (Entry_Success e) (Entry_ErrorMsg e).
Definition set_Success (v : bool) (e : AuditEntry) : AuditEntry :=
  mkAuditEntry (Entry_ID e) (Entry_Timestamp e) (Entry_Action e) (Entry_Actor e)
    (Entry_Resource e) (Entry_Changes e) (Entry_Metadata e) (Entry_IPAddress e)
    (Entry_UserAgent e) v (Entry_ErrorMsg e).
Definition set_ErrorMsg (v : string) (e : AuditEntry) : AuditEntry :=
  mkAuditEntry (Entry_ID e) (Entry_Timestamp e) (Entry_Action e) (Entry_Actor e)
    (Entry_Resource e) (Entry_Changes e) (Entry_Metadata e) (Entry_IPAddress e)
    (Entry_UserAgent e) (Entry_Success e) v.

(* ================================================================== *)
(** ** Errors *)

(** One constructor per way an error value is made in the package:
    [errors_New] for the sentinels of the libraries and for [fmt.Errorf]
    without a verb, the [Errorf_*] forms for [fmt.Errorf] with the verbs
    the code uses, and the two error types the package declares.  The
    cause of [Errorf_dw] is an option because [Insert] may format a nil
    error. *)
Inductive error : Type :=
| errors_New (text : string)
| hex_InvalidByteError (b : Ascii.ascii)
| Errorf_s (format : string) (s : string)
| Errorf_w (format : string) (cause : error)
| Errorf_dw (format : string) (d : Z) (cause : option error)
| ErrNoServiceConfigured
| ErrInvalidConfig (Field Message : string).

Definition context_Canceled : error := errors_New "context canceled".
Definition context_DeadlineExceeded : error := errors_New "context deadline exceeded".
Definition mongo_ErrNoDocuments : error := errors_New "mongo: no documents in result".
Definition primitive_ErrInvalidHex : error :=
  errors_New "the provided hex string is not a valid ObjectID".

#[global] Instance error_eq_dec : EqDecision error.
Proof.
  unfold EqDecision, Decision.
  fix go 1.
  intros x y; destruct x, y; try (right; congruence).
  - destruct (decide (text = text0)) as [->|]; [left|right]; congruence.
  - destruct (decide (b = b0)) as [->|]; [left|right]; congruence.
  - destruct (decide (format = format0)) as [->|]; [|right; congruence].
    destruct (decide (s = s0)) as [->|]; [left|right]; congruence.
  - destruct (decide (format = format0)) as [->|]; [|right; congruence].
    destruct (go x y) as [->|]; [left|right]; congruence.
  - destruct (decide (format = format0)) as [->|]; [|right; congruence].
    destruct (decide (d = d0)) as [->|]; [|right; congruence].
    destruct cause as [c|], cause0 as [c0|]; try (right; congruence).
    + destruct (go c c0) as [->|]; [left|right]; congruence.
    + left; reflexivity.
  - left; reflexivity.
  - destruct (decide (Field = Field0)) as [->|]; [|right; congruence].
    destruct (decide (Message = Message0)) as [->|]; [left|right]; congruence.
Defined.

(** Replace the first occurrence of [verb] in [format] by [repl]. *)
Fixpoint subst_verb (verb repl format : string) : string :=
  match format with
  | EmptyString => EmptyString
  | String c rest =>
      if String.prefix verb format
      then repl +:+ String.substring (String.length verb)
                      (String.length format - String.length verb) format
      else String c (subst_verb verb repl rest)
  end.

(** The [Error()] method.  The text of [hex_InvalidByteError] stands for
    the one of encoding/hex, which prints the byte with the verb %#U. *)
Fixpoint Error_text (e : error) : string :=
  match e with
  | errors_New text => text
  | hex_InvalidByteError b => "encoding/hex: invalid byte: " +:+ String b EmptyString
  | Errorf_s format s => subst_verb "%s" s format
  | Errorf_w format cause => subst_verb "%w" (Error_text cause) format
  | Errorf_dw format d cause =>
      subst_verb "%w"
        (match cause with
         | Some c => Error_text c
         | None => "%!w(<nil>)"
         end)
        (subst_verb "%d" (pretty d) format)
  | ErrNoServiceConfigured =>
      "no audit service configured: use SetDefaultService() or NewAuditBuilderWithService()"
  | ErrInvalidConfig Field Message =>
      "invalid config field '" +:+ Field +:+ "': " +:+ Message
  end.

(** [errors.Unwrap]: the error wrapped with %w, if any. *)
Definition errors_Unwrap (e : error) : option error :=
  match e with
  | Errorf_w _ cause => Some cause
  | Errorf_dw _ _ cause => cause
  | _ => None
  end.

(** [errors.Is err target]: [target] occurs on the chain of wrapped
    errors of [err]. *)
Fixpoint errors_Is (err target : error) : bool :=
  bool_decide (err = target) ||
  match err with
  | Errorf_w _ cause => errors_Is cause target
  | Errorf_dw _ _ (Some cause) => errors_Is cause target
  | _ => false
  end.

(* ================================================================== *)
(** ** The context, BSON values and the store *)

(** A [context.Context] as far as the package can observe it: its
    [Err()] is nil until it is cancelled or its deadline passes. *)
Inductive context_Context : Type :=
| ctx_Background
| ctx_Canceled
| ctx_DeadlineExceeded.

Definition ctx_Err (ctx : context_Context) : option error :=
  match ctx with
  | ctx_Background => None
  | ctx_Canceled => Some context_Canceled
  | ctx_DeadlineExceeded => Some context_DeadlineExceeded
  end.

Inductive bsonValue : Type :=
| BString (s : string)
| BBool (b : bool)
| BDateTime (t : Time)
| BObjectID (id : ObjectID)
| BArray (elems : list bsonValue)
| BDocument (fields : gmap string bsonValue).

Abbreviation bson_M := (gmap string bsonValue).

(** [options.Find()]: the sort document and the optional limit and skip. *)
Record FindOptions := mkFindOptions {
  Opt_Sort : list (string * Z);
  Opt_Limit : option Z;
  Opt_Skip : option Z
}.

Definition options_Find : FindOptions := mkFindOptions [] None None.
Definition SetSort (sort : list (string * Z)) (o : FindOptions) : FindOptions :=
  mkFindOptions sort (Opt_Limit o) (Opt_Skip o).
Definition SetLimit (l : Z) (o : FindOptions) : FindOptions :=
  mkFindOptions (Opt_Sort o) (Some l) (Opt_Skip o).
Definition SetSkip (k : Z) (o : FindOptions) : FindOptions :=
  mkFindOptions (Opt_Sort o) (Opt_Limit o) (Some k).

(** What the package asks of the outside world, in call order.
    [EvRepositoryCall] is left by repositories that only note which of
    their methods ran. *)
Inductive Event : Type :=
| EvInsertOne (doc : AuditEntry) (outcome : option error)
| EvSleep (d : Duration)
| EvCountDocuments (filter : bson_M)
| EvFind (filter : bson_M) (opts : FindOptions)
| EvCursorAll
| EvFindOne (filter : bson_M)
| EvCreateIndexes (keys : list (list (string * Z)))
| EvDisconnect
| EvRepositoryCall (method : string).

(** The world the repository runs in: the documents of the collection
    in insertion order, the outcome scripted for each coming round trip
    to the store ([Some err] makes that call fail with [err]; an empty
    script means no failure), the clock, the next generated identifier
    and the journal of calls made so far (oldest first). *)
Record World := mkWorld {
  documents : list AuditEntry;
  faults : list (option error);
  clock : Time;
  fresh : ObjectID;
  journal : list Event
}.

Definition record (ev : Event) (w : World) : World :=
  mkWorld (documents w) (faults w) (clock w) (fresh w) (journal w ++ [ev]).

(** Computations: a fuel budget and the world in, a value and the world
    out; [None] when the budget does not suffice. *)
Definition M (A : Type) : Type := nat -> World -> option (A * World).

Definition ret {A} (a : A) : M A := fun _ w => Some (a, w).
Definition bind {A B} (m : M A) (k : A -> M B) : M B :=
  fun fuel w =>
    match m fuel w with
    | Some (a, w') => k a fuel w'
    | None => None
    end.

Notation "'do' x <- m ; k" := (bind m (fun x => k))
  (at level 10, x binder, m at level 100, k at level 200).
Notation "'do' ' p <- m ; k" := (bind m (fun x => let 'p := x in k))
  (at level 10, p pattern, m at level 100, k at level 200).

(** *** The clock and the identifier generator *)

Definition time_Now : M Time := fun _ w => Some (clock w, w).

Definition time_Sleep (d : Duration) : M unit := fun _ w =>
  Some (tt, record (EvSleep d)
              (mkWorld (documents w) (faults w) (clock w + Z.max d 0) (fresh w) (journal w))).

Definition primitive_NewObjectID : M ObjectID := fun _ w =>
  Some (fresh w, mkWorld (documents w) (faults w) (clock w) (N.succ (fresh w)) (journal w)).

(** *** The collection

    The driver is outside the package; this is its contract, run on the
    world above.  Every round trip first observes the context (a done
    context fails the call with the context's error), then the script
    of failures. *)

Definition round_trip (ctx : context_Context) (w : World) : option error * World :=
  match ctx_Err ctx with
  | Some e => (Some e, w)
  | None =>
      match faults w with
      | [] => (None, w)
      | f :: rest => (f, mkWorld (documents w) rest (clock w) (fresh w) (journal w))
      end
  end.

(** The fields of the stored document by dotted path, as the bson tags
    of types.go lay them out (omitempty fields are absent when empty). *)
Definition omit_empty (s : string) : option bsonValue :=
  if String.eqb s EmptyString then None else Some (BString s).

Definition entry_field (e : AuditEntry) (path : string) : option bsonValue :=
  if String.eqb path "_id" then
    (if ObjectID_IsZero (Entry_ID e) then None else Some (BObjectID (Entry_ID e)))
  else if String.eqb path "timestamp" then Some (BDateTime (Entry_Timestamp e))
  else if String.eqb path "action" then Some (BString (Entry_Action e))
  else if String.eqb path "actor.id" then Some (BString (Actor_ID (Entry_Actor e)))
  else if String.eqb path "actor.type" then Some (BString (Actor_Type (Entry_Actor e)))
  else if String.eqb path "actor.name" then omit_empty (Actor_Name (Entry_Actor e))
  else if String.eqb path "actor.session_id" then omit_empty (Actor_SessionID (Entry_Actor e))
  else if String.eqb path "resource.type" then Some (BString (Resource_Type (Entry_Resource e)))
  else if String.eqb path "resource.id" then Some (BString (Resource_ID (Entry_Resource e)))
  else if String.eqb path "resource.name" then omit_empty (Resource_Name (Entry_Resource e))
  else if String.eqb path "ip_address" then omit_empty (Entry_IPAddress e)
  else if String.eqb path "user_agent" then omit_empty (Entry_UserAgent e)
  else if String.eqb path "success" then Some (BBool (Entry_Success e))
  else if String.eqb path "error_msg" then omit_empty (Entry_ErrorMsg e)
  else None.

(** Equality of scalar values. *)
Definition scalar_eqb (a b : bsonValue) : bool :=
  match a, b with
  | BString x, BString y => String.eqb x y
  | BBool x, BBool y => Bool.eqb x y
  | BDateTime x, BDateTime y => x =? y
  | BObjectID x, BObjectID y => N.eqb x y
  | _, _ => false
  end.

(** The query operators the package uses. *)
Definition operator_ok (field : option bsonValue) (op : string) (arg : bsonValue) : bool :=
  match field with
  | None => false
  | Some v =>
      if String.eqb op "$in" then
        match arg with
        | BArray elems => existsb (scalar_eqb v) elems
        | _ => false
        end
      else if String.eqb op "$gte" then
        match v, arg with
        | BDateTime t, BDateTime bound => bound <=? t
        | _, _ => false
        end
      else if String.eqb op "$lte" then
        match v, arg with
        | BDateTime t, BDateTime bound => t <=? bound
        | _, _ => false
        end
      else false
  end.

(** One clause [path: value] of a filter: an operator document, or
    equality with a scalar. *)
Definition clause_ok (e : AuditEntry) (path : string) (v : bsonValue) : bool :=
  match v with
  | BDocument ops =>
      bool_decide (map_Forall (fun op arg => operator_ok (entry_field e path) op arg = true) ops)
  | _ =>
      match entry_field e path with
      | Some fv => scalar_eqb fv v
      | None => false
      end
  end.

(** A document matches a filter when it satisfies every clause. *)
Definition matches (filter : bson_M) (e : AuditEntry) : bool :=
  bool_decide (map_Forall (fun path v => clause_ok e path v = true) filter).

(** Newest first: a stable insertion sort on the timestamp, descending. *)
Fixpoint insert_newest (e : AuditEntry) (l : list AuditEntry) : list AuditEntry :=
  match l with
  | [] => [e]
  | x :: xs =>
      if Entry_Timestamp x <=? Entry_Timestamp e
      then e :: l
      else x :: insert_newest e xs
  end.

Definition newest_first (l : list AuditEntry) : list AuditEntry :=
  foldr insert_newest [] l.

Definition sort_documents (sort : list (string * Z)) (l : list AuditEntry) : list AuditEntry :=
  match sort with
  | (key, dir) :: _ =>
      if String.eqb key "timestamp" && (dir <? 0) then newest_first l else l
  | [] => l
  end.

(** Skip, then limit; a limit of 0 is no limit. *)
Definition page (opts : FindOptions) (l : list AuditEntry) : list AuditEntry :=
  let skipped :=
    match Opt_Skip opts with
    | Some k => drop (Z.to_nat k) l
    | None => l
    end in
  match Opt_Limit opts with
  | Some n => if n =? 0 then skipped else take (Z.to_nat (Z.abs n)) skipped
  | None => skipped
  end.

Definition duplicate_key : error := errors_New "E11000 duplicate key error".

Definition Collection_InsertOne (ctx : context_Context) (doc : AuditEntry) : M (option error) :=
  fun _ w =>
    let '(f, w1) := round_trip ctx w in
    let outcome :=
      match f with
      | Some e => Some e
      | None =>
          if existsb (fun d => N.eqb (Entry_ID d) (Entry_ID doc)) (documents w1)
          then Some duplicate_key
          else None
      end in
    let w2 :=
      match outcome with
      | None => mkWorld (documents w1 ++ [doc]) (faults w1) (clock w1) (fresh w1) (journal w1)
      | Some _ => w1
      end in
    Some (outcome, record (EvInsertOne doc outcome) w2).

Definition Collection_CountDocuments (ctx : context_Context) (flt : bson_M)
  : M (Z * option error) :=
  fun _ w =>
    let '(f, w1) := round_trip ctx w in
    let w2 := record (EvCountDocuments flt) w1 in
    match f with
    | Some e => Some ((0, Some e), w2)
    | None => Some ((Z.of_nat (length (List.filter (matches flt) (documents w1))), None), w2)
    end.

(** [Find] returns a cursor over the selected documents. *)
Definition Collection_Find (ctx : context_Context) (flt : bson_M) (opts : FindOptions)
  : M (list AuditEntry * option error) :=
  fun _ w =>
    let '(f, w1) := round_trip ctx w in
    let w2 := record (EvFind flt opts) w1 in
    match f with
    | Some e => Some (([], Some e), w2)
    | None =>
        Some ((page opts (sort_documents (Opt_Sort opts)
                            (List.filter (matches flt) (documents w1))), None), w2)
    end.

(** [cursor.All]: drain the cursor into a slice.  The deferred
    [cursor.Close] that follows has no effect the package observes and
    is left out. *)
Definition Cursor_All (ctx : context_Context) (cursor : list AuditEntry)
  : M (list AuditEntry * option error) :=
  fun _ w =>
    let '(f, w1) := round_trip ctx w in
    let w2 := record EvCursorAll w1 in
    match f with
    | Some e => Some (([], Some e), w2)
    | None => Some ((cursor, None), w2)
    end.

(** [FindOne(...).Decode]: the first matching document, or
    [mongo.ErrNoDocuments]. *)
Definition Collection_FindOne (ctx : context_Context) (flt : bson_M)
  : M (option AuditEntry * option error) :=
  fun _ w =>
    let '(f, w1) := round_trip ctx w in
    let w2 := record (EvFindOne flt) w1 in
    match f with
    | Some e => Some ((None, Some e), w2)
    | None =>
        match List.filter (matches flt) (documents w1) with
        | d :: _ => Some ((Some d, None), w2)
        | [] => Some ((None, Some mongo_ErrNoDocuments), w2)
        end
    end.

Definition Collection_CreateIndexes (ctx : context_Context) (keys : list (list (string * Z)))
  : M (option error) :=
  fun _ w =>
    let '(f, w1) := round_trip ctx w in
    Some (f, record (EvCreateIndexes keys) w1).

Definition Client_Disconnect (ctx : context_Context) : M (option error) :=
  fun _ w =>
    let '(f, w1) := round_trip ctx w in
    Some (f, record EvDisconnect w1).

(** *** primitive.ObjectIDFromHex *)

Definition hex_digit (c : Ascii.ascii) : option N :=
  let n := Ascii.N_of_ascii c in
  if (48 <=? n)%N && (n <=? 57)%N then Some (n - 48)%N
  else if (97 <=? n)%N && (n <=? 102)%N then Some (n - 87)%N
  else if (65 <=? n)%N && (n <=? 70)%N then Some (n - 55)%N
  else None.

Fixpoint hex_Decode (s : string) (acc : N) : N + error :=
  match s with
  | EmptyString => inl acc
  | String c rest =>
      match hex_digit c with
      | Some d => hex_Decode rest (acc * 16 + d)%N
      | None => inr (hex_InvalidByteError c)
      end
  end.

Definition primitive_ObjectIDFromHex (s : string) : ObjectID * option error :=
  if negb (Nat.eqb (String.length s) 24) then (NilObjectID, Some primitive_ErrInvalidHex)
  else
    match hex_Decode s 0%N with
    | inl id => (id, None)
    | inr e => (NilObjectID, Some e)
    end.

(* ================================================================== *)
(** ** config.go *)

Record Config := mkConfig {
  MongoURI : string;
  DatabaseName : string;
  CollectionName : string;
  MaxPoolSize : Z;
  MinPoolSize : Z;
  ConnectTimeout : Duration;
  MaxRetries : Z;
  RetryDelay : Duration;
  BatchSize : Z;
  EnableIndexes : bool
}.

Definition time_Second : Duration := 1000000000.

Definition DefaultConfig : Config :=
  mkConfig "mongodb://localhost:27017" "audit" "audit_logs"
           100 5 (10 * time_Second) 3 time_Second 1000 true.

Definition Config_Validate (c : Config) : option error :=
  if String.eqb (MongoURI c) EmptyString then
    Some (ErrInvalidConfig "MongoURI" "cannot be empty")
  else if String.eqb (DatabaseName c) EmptyString then
    Some (ErrInvalidConfig "DatabaseName" "cannot be empty")
  else if String.eqb (CollectionName c) EmptyString then
    Some (ErrInvalidConfig "CollectionName" "cannot be empty")
  else if MaxRetries c <? 0 then
    Some (ErrInvalidConfig "MaxRetries" "cannot be negative")
  else if RetryDelay c <? 0 then
    Some (ErrInvalidConfig "RetryDelay" "cannot be negative")
  else if BatchSize c <=? 0 then
    Some (ErrInvalidConfig "BatchSize" "must be positive")
  else None.

(* ================================================================== *)
(** ** The persistence interface *)

Module AuditRepository.
Class Impl (R : Type) := {
    Insert : R -> context_Context -> AuditEntry -> M (option error);
    FindByQuery : R -> context_Context -> AuditQuery
                  -> M (option AuditQueryResult * option error);
    FindByID : R -> context_Context -> string -> M (option AuditEntry * option error);
    FindByResource : R -> context_Context -> string -> string -> Z
                     -> M (list AuditEntry * option error);
    FindByActor : R -> context_Context -> string -> ActorType -> Z
                  -> M (list AuditEntry * option error);
    EnsureIndexes : R -> context_Context -> M (option error);
    Close : R -> context_Context -> M (option error)
  }.
End AuditRepository.

(* ================================================================== *)
(** ** mongo_repo.go *)

Module mongoRepository.

  (** The client and the collection handle are the world; the struct
      keeps the configuration. *)
Record t := mk { config : Config }.

Definition by_timestamp_desc : list (string * Z) := [("timestamp", -1)].

  (** The loop of [Insert], from the value [attempt] of its counter,
      with the statement after the loop as the exit branch.  Each turn
      of the loop takes one unit of [budget]. *)
Fixpoint Insert_loop (r : t) (ctx : context_Context) (entry : AuditEntry)
      (budget : nat) (attempt : Z) (err : option error) : M (option error) :=
    match budget with
    | O => fun _ _ => None
    | S budget' =>
        if attempt <=? MaxRetries (config r) then
          do err' <- Collection_InsertOne ctx entry;
          match err' with
          | None => ret None
          | Some _ =>
              do _ <- (if attempt <? MaxRetries (config r)
                       then time_Sleep (RetryDelay (config r))
                       else ret tt);
              Insert_loop r ctx entry budget' (wrap_int (attempt + 1)) err'
          end
        else
          ret (Some (Errorf_dw "failed to insert audit entry after %d attempts: %w"
                       (wrap_int (MaxRetries (config r) + 1)) err))
    end.

Definition Insert (r : t) (ctx : context_Context) (entry : AuditEntry) : M (option error) :=
    fun fuel =>
      (do entry <- (if Time_IsZero (Entry_Timestamp entry)
                    then do now <- time_Now; ret (set_Timestamp now entry)
                    else ret entry);
       do entry <- (if ObjectID_IsZero (Entry_ID entry)
                    then do id <- primitive_NewObjectID; ret (set_ID id entry)
                    else ret entry);
       Insert_loop r ctx entry fuel 0 None) fuel.

Definition buildFilter (query : AuditQuery) : bson_M :=
    let flt : bson_M := ∅ in
    let flt := if negb (String.eqb (Query_ActorID query) EmptyString)
               then <["actor.id" := BString (Query_ActorID query)]> flt else flt in
    let flt := if negb (String.eqb (Query_ActorType query) EmptyString)
               then <["actor.type" := BString (Query_ActorType query)]> flt else flt in
    let flt := if negb (String.eqb (Query_SessionID query) EmptyString)
               then <["actor.session_id" := BString (Query_SessionID query)]> flt else flt in
    let flt := if (0 <? length (Query_Actions query))%nat
               then <["action" := BDocument {[ "$in" := BArray (BString <$> Query_Actions query) ]}]> flt
               else flt in
    let flt := if negb (String.eqb (Query_ResourceType query) EmptyString)
               then <["resource.type" := BString (Query_ResourceType query)]> flt else flt in
    let flt := if negb (String.eqb (Query_ResourceID query) EmptyString)
               then <["resource.id" := BString (Query_ResourceID query)]> flt else flt in
    let flt := match Query_Success query with
               | Some b => <["success" := BBool b]> flt
               | None => flt
               end in
    if bool_decide (Query_StartTime query ≠ None) || bool_decide (Query_EndTime query ≠ None)
    then
      let timeFilter : bson_M := ∅ in
      let timeFilter := match Query_StartTime query with
                        | Some t => <["$gte" := BDateTime t]> timeFilter
                        | None => timeFilter
                        end in
      let timeFilter := match Query_EndTime query with
                        | Some t => <["$lte" := BDateTime t]> timeFilter
                        | None => timeFilter
                        end in
      <["timestamp" := BDocument timeFilter]> flt
    else flt.

Definition FindByQuery (r : t) (ctx : context_Context) (query : AuditQuery)
    : M (option AuditQueryResult * option error) :=
    let flt := buildFilter query in
    do '(total, err) <- Collection_CountDocuments ctx flt;
    match err with
    | Some e => ret (None, Some (Errorf_w "failed to count documents: %w" e))
    | None =>
        let opts := SetSort by_timestamp_desc options_Find in
        let opts := if 0 <? Query_Limit query then SetLimit (Query_Limit query) opts else opts in
        let opts := if 0 <? Query_Offset query then SetSkip (Query_Offset query) opts else opts in
        do '(cursor, err) <- Collection_Find ctx flt opts;
        match err with
        | Some e => ret (None, Some (Errorf_w "failed to execute query: %w" e))
        | None =>
            do '(entries, err) <- Cursor_All ctx cursor;
            match err with
            | Some e => ret (None, Some (Errorf_w "failed to decode results: %w" e))
            | None =>
                let hasMore :=
                  (0 <? Query_Limit query)
                  && (wrap_int (Query_Offset query + Z.of_nat (length entries)) <? total) in
                ret (Some (mkAuditQueryResult entries total hasMore), None)
            end
        end
    end.

Definition FindByID (r : t) (ctx : context_Context) (id : string)
    : M (option AuditEntry * option error) :=
    let '(objectID, err) := primitive_ObjectIDFromHex id in
    match err with
    | Some e => ret (None, Some (Errorf_w "invalid ID format: %w" e))
    | None =>
        let flt : bson_M := {[ "_id" := BObjectID objectID ]} in
        do '(entry, err) <- Collection_FindOne ctx flt;
        match err with
        | Some e =>
            if bool_decide (e = mongo_ErrNoDocuments) then ret (None, None)
            else ret (None, Some (Errorf_w "failed to find audit entry: %w" e))
        | None => ret (entry, None)
        end
    end.

  (** The tail shared by [FindByResource] and [FindByActor]: run the
      query and drain the cursor. *)
Definition find_all (ctx : context_Context) (flt : bson_M) (limit : Z) (what : string)
    : M (list AuditEntry * option error) :=
    let opts := SetSort by_timestamp_desc options_Find in
    let opts := if 0 <? limit then SetLimit limit opts else opts in
    do '(cursor, err) <- Collection_Find ctx flt opts;
    match err with
    | Some e => ret ([], Some (Errorf_w what e))
    | None =>
        do '(entries, err) <- Cursor_All ctx cursor;
        match err with
        | Some e => ret ([], Some (Errorf_w "failed to decode results: %w" e))
        | None => ret (entries, None)
        end
    end.

Definition FindByResource (r : t) (ctx : context_Context)
      (resourceType resourceID : string) (limit : Z) : M (list AuditEntry * option error) :=
    let flt : bson_M :=
      <["resource.id" := BString resourceID]> (<["resource.type" := BString resourceType]> ∅) in
    find_all ctx flt limit "failed to find resource history: %w".

Definition FindByActor (r : t) (ctx : context_Context)
      (actorID : string) (actorType : ActorType) (limit : Z)
    : M (list AuditEntry * option error) :=
    let flt : bson_M := {[ "actor.id" := BString actorID ]} in
    let flt := if negb (String.eqb actorType EmptyString)
               then <["actor.type" := BString actorType]> flt else flt in
    find_all ctx flt limit "failed to find actor history: %w".

Definition indexes : list (list (string * Z)) :=
    [ [("actor.id", 1); ("timestamp", -1)];
      [("actor.type", 1); ("timestamp", -1)];
      [("actor.session_id", 1); ("timestamp", -1)];
      [("resource.type", 1); ("resource.id", 1); ("timestamp", -1)];
      [("action", 1); ("timestamp", -1)];
      [("timestamp", -1)];
      [("actor.id", 1); ("actor.type", 1); ("timestamp", -1)] ].

Definition EnsureIndexes (r : t) (ctx : context_Context) : M (option error) :=
    do err <- Collection_CreateIndexes ctx indexes;
    match err with
    | Some e => ret (Some (Errorf_w "failed to create indexes: %w" e))
    | None => ret None
    end.

Definition Close (r : t) (ctx : context_Context) : M (option error) :=
    Client_Disconnect ctx.

End mongoRepository.

#[global] Instance mongoRepository_Impl : AuditRepository.Impl mongoRepository.t := {
  AuditRepository.Insert := mongoRepository.Insert;
  AuditRepository.FindByQuery := mongoRepository.FindByQuery;
  AuditRepository.FindByID := mongoRepository.FindByID;
  AuditRepository.FindByResource := mongoRepository.FindByResource;
  AuditRepository.FindByActor := mongoRepository.FindByActor;
  AuditRepository.EnsureIndexes := mongoRepository.EnsureIndexes;
  AuditRepository.Close := mongoRepository.Close
}.

(** A second implementation of the interface, for observing the
    service: every method notes its name in the journal and reports
    success with an empty result. *)
Module spyRepository.

Record t := mk { }.

Definition called {A} (method : string) (result : A) : M A :=
  fun _ w => Some (result, record (EvRepositoryCall method) w).

End spyRepository.

#[global] Instance spyRepository_Impl : AuditRepository.Impl spyRepository.t := {
  AuditRepository.Insert _ _ _ := spyRepository.called "Insert" None;
  AuditRepository.FindByQuery _ _ _ := spyRepository.called "FindByQuery" (None, None);
  AuditRepository.FindByID _ _ _ := spyRepository.called "FindByID" (None, None);
  AuditRepository.FindByResource _ _ _ _ _ := spyRepository.called "FindByResource" ([], None);
  AuditRepository.FindByActor _ _ _ _ _ := spyRepository.called "FindByActor" ([], None);
  AuditRepository.EnsureIndexes _ _ := spyRepository.called "EnsureIndexes" None;
  AuditRepository.Close _ _ := spyRepository.called "Close" None
}.

(* ================================================================== *)
(** ** The audit service *)

Module AuditService.
Class Impl (S : Type) := {
    LogAction : S -> context_Context -> AuditEntry -> M (option error);
    GetHistory : S -> context_Context -> AuditQuery
                 -> M (option AuditQueryResult * option error);
    GetByID : S -> context_Context -> string -> M (option AuditEntry * option error);
    GetResourceHistory : S -> context_Context -> string -> string -> Z
                         -> M (list AuditEntry * option error);
    GetActorHistory : S -> context_Context -> string -> ActorType -> Z
                      -> M (list AuditEntry * option error);
    Close : S -> context_Context -> M (option error)
  }.
End AuditService.

(** The two closed enumerations, as the [switch] statements list them. *)
Definition valid_actor_type (t : ActorType) : bool :=
  existsb (String.eqb t)
    [ActorTypeUser; ActorTypeSystem; ActorTypeService; ActorTypeAPI; ActorTypeAdmin].

Definition valid_action (a : AuditAction) : bool :=
  existsb (String.eqb a)
    [ActionCreate; ActionUpdate; ActionDelete; ActionLogin; ActionLogout;
     ActionView; ActionExport].

Module auditService.

Record t (R : Type) := mk { repo : R }.
  Arguments mk {R} _.
  Arguments repo {R} _.

Definition NewServiceWithRepository {R} (r : R) : t R := mk r.

Definition validateAuditEntry (entry : AuditEntry) : option error :=
    if String.eqb (Entry_Action entry) EmptyString then
      Some (errors_New "action cannot be empty")
    else if String.eqb (Actor_ID (Entry_Actor entry)) EmptyString then
      Some (errors_New "actor ID cannot be empty")
    else if String.eqb (Actor_Type (Entry_Actor entry)) EmptyString then
      Some (errors_New "actor type cannot be empty")
    else if String.eqb (Resource_Type (Entry_Resource entry)) EmptyString then
      Some (errors_New "resource type cannot be empty")
    else if String.eqb (Resource_ID (Entry_Resource entry)) EmptyString then
      Some (errors_New "resource ID cannot be empty")
    else if negb (valid_actor_type (Actor_Type (Entry_Actor entry))) then
      Some (Errorf_s "invalid actor type: %s" (Actor_Type (Entry_Actor entry)))
    else if negb (valid_action (Entry_Action entry)) then
      Some (Errorf_s "invalid action: %s" (Entry_Action entry))
    else None.

  (** The [for ... range query.Actions] loop: the first action outside
      the enumeration ends the validation. *)
Fixpoint validate_actions (actions : list AuditAction) : option error :=
    match actions with
    | [] => None
    | action :: rest =>
        if valid_action action then validate_actions rest
        else Some (Errorf_s "invalid action: %s" action)
    end.

Definition validateAuditQuery (query : AuditQuery) : option error :=
    if Query_Limit query <? 0 then
      Some (errors_New "limit cannot be negative")
    else if Query_Offset query <? 0 then
      Some (errors_New "offset cannot be negative")
    else if
      match Query_StartTime query, Query_EndTime query with
      | Some s, Some e => Time_After s e
      | _, _ => false
      end
    then Some (errors_New "start time cannot be after end time")
    else if negb (String.eqb (Query_ActorType query) EmptyString)
            && negb (valid_actor_type (Query_ActorType query)) then
      Some (Errorf_s "invalid actor type: %s" (Query_ActorType query))
    else validate_actions (Query_Actions query).

  Section Methods.
    Context {R : Type} `{AuditRepository.Impl R}.

Definition LogAction (s : t R) (ctx : context_Context) (entry : AuditEntry)
      : M (option error) :=
      match validateAuditEntry entry with
      | Some err => ret (Some (Errorf_w "invalid audit entry: %w" err))
      | None => AuditRepository.Insert (repo s) ctx entry
      end.

Definition GetHistory (s : t R) (ctx : context_Context) (query : AuditQuery)
      : M (option AuditQueryResult * option error) :=
      match validateAuditQuery query with
      | Some err => ret (None, Some (Errorf_w "invalid query: %w" err))
      | None => AuditRepository.FindByQuery (repo s) ctx query
      end.

Definition GetByID (s : t R) (ctx : context_Context) (id : string)
      : M (option AuditEntry * option error) :=
      if String.eqb id EmptyString then
        ret (None, Some (errors_New "id cannot be empty"))
      else AuditRepository.FindByID (repo s) ctx id.

Definition GetResourceHistory (s : t R) (ctx : context_Context)
        (resourceType resourceID : string) (limit : Z)
      : M (list AuditEntry * option error) :=
      if String.eqb resourceType EmptyString then
        ret ([], Some (errors_New "resource type cannot be empty"))
      else if String.eqb resourceID EmptyString then
        ret ([], Some (errors_New "resource ID cannot be empty"))
      else if limit <? 0 then
        ret ([], Some (errors_New "limit cannot be negative"))
      else AuditRepository.FindByResource (repo s) ctx resourceType resourceID limit.

Definition GetActorHistory (s : t R) (ctx : context_Context)
        (actorID : string) (actorType : ActorType) (limit : Z)
      : M (list AuditEntry * option error) :=
      if String.eqb actorID EmptyString then
        ret ([], Some (errors_New "actor ID cannot be empty"))
      else if limit <? 0 then
        ret ([], Some (errors_New "limit cannot be negative"))
      else AuditRepository.FindByActor (repo s) ctx actorID actorType limit.

Definition Close (s : t R) (ctx : context_Context) : M (option error) :=
      AuditRepository.Close (repo s) ctx.
  End Methods.

End auditService.

#[global] Instance auditService_Impl {R} `{AuditRepository.Impl R}
  : AuditService.Impl (auditService.t R) := {
  AuditService.LogAction := auditService.LogAction;
  AuditService.GetHistory := auditService.GetHistory;
  AuditService.GetByID := auditService.GetByID;
  AuditService.GetResourceHistory := auditService.GetResourceHistory;
  AuditService.GetActorHistory := auditService.GetActorHistory;
  AuditService.Close := auditService.Close
}.

(* ================================================================== *)
(** ** builder.go *)

Module AuditBuilder.

  (** The builder is used through one pointer; each method updates the
      entry and hands the same builder back, here as the new value.
      [service] is [None] for a nil interface value. *)
Record t (S : Type) := mk { entry : AuditEntry; service : option S }.
  Arguments mk {S} _ _.
  Arguments entry {S} _.
  Arguments service {S} _.

  Section Methods.
    Context {S : Type}.

Definition with_entry (f : AuditEntry -> AuditEntry) (b : t S) : t S :=
      mk (f (entry b)) (service b).

    (** [defaultService] is the package-level variable read by
        [NewAuditBuilder]. *)
Definition NewAuditBuilder (defaultService : option S) : M (t S) :=
      do id <- primitive_NewObjectID;
      do now <- time_Now;
      ret (mk (set_Metadata (Some ∅) (set_Timestamp now (set_ID id zeroEntry)))
              defaultService).

Definition NewAuditBuilderWithService (s : option S) : M (t S) :=
      do id <- primitive_NewObjectID;
      do now <- time_Now;
      ret (mk (set_Metadata (Some ∅) (set_Timestamp now (set_ID id zeroEntry))) s).

Definition Action (action : AuditAction) (b : t S) : t S :=
      with_entry (set_Action action) b.

Definition Actor (actorID : string) (actorType : ActorType) (actorName : string)
        (b : t S) : t S :=
      with_entry (set_Actor (mkActor actorID actorType actorName EmptyString)) b.

Definition ActorWithSession (actorID : string) (actorType : ActorType)
        (actorName sessionID : string) (b : t S) : t S :=
      with_entry (set_Actor (mkActor actorID actorType actorName sessionID)) b.

Definition Session (sessionID : string) (b : t S) : t S :=
      with_entry (fun e =>
        set_Actor (mkActor (Actor_ID (Entry_Actor e)) (Actor_Type (Entry_Actor e))
                           (Actor_Name (Entry_Actor e)) sessionID) e) b.

Definition Resource (resourceType resourceID resourceName : string) (b : t S) : t S :=
      with_entry (set_Resource (mkAuditResource resourceType resourceID resourceName)) b.

Definition AddChange (field : string) (oldValue newValue : any) (b : t S) : t S :=
      with_entry (fun e =>
        set_Changes (Entry_Changes e ++ [mkFieldChange field oldValue newValue]) e) b.

Definition Metadata (key : string) (value : any) (b : t S) : t S :=
      with_entry (fun e =>
        let m := match Entry_Metadata e with
                 | Some m => m
                 | None => ∅
                 end in
        set_Metadata (Some (<[key := value]> m)) e) b.

Definition IPAddress (ip : string) (b : t S) : t S :=
      with_entry (set_IPAddress ip) b.

Definition UserAgent (ua : string) (b : t S) : t S :=
      with_entry (set_UserAgent ua) b.

Definition Success (success : bool) (b : t S) : t S :=
      with_entry (set_Success success) b.

Definition Error (err : option error) (b : t S) : t S :=
      match err with
      | Some e => with_entry (fun en => set_Success false (set_ErrorMsg (Error_text e) en)) b
      | None => b
      end.

Definition Timestamp (timestamp : Time) (b : t S) : t S :=
      with_entry (set_Timestamp timestamp) b.

Definition Build (b : t S) : AuditEntry := entry b.

Definition Log `{AuditService.Impl S} (ctx : context_Context) (b : t S)
      : M (option error) :=
      match service b with
      | None => ret (Some ErrNoServiceConfigured)
      | Some s => AuditService.LogAction s ctx (entry b)
      end.

Definition User (userID userName : string) : t S -> t S :=
      Actor userID ActorTypeUser userName.
Definition UserWithSession (userID userName sessionID : string) : t S -> t S :=
      ActorWithSession userID ActorTypeUser userName sessionID.
Definition System (systemID systemName : string) : t S -> t S :=
      Actor systemID ActorTypeSystem systemName.
Definition Service (serviceID serviceName : string) : t S -> t S :=
      Actor serviceID ActorTypeService serviceName.
Definition API (apiID apiName : string) : t S -> t S :=
      Actor apiID ActorTypeAPI apiName.
Definition Admin (adminID adminName : string) : t S -> t S :=
      Actor adminID ActorTypeAdmin adminName.
Definition AdminWithSession (adminID adminName sessionID : string) : t S -> t S :=
      ActorWithSession adminID ActorTypeAdmin adminName sessionID.

Definition Create : t S -> t S := Action ActionCreate.
Definition Update : t S -> t S := Action ActionUpdate.
Definition Delete : t S -> t S := Action ActionDelete.
Definition Login : t S -> t S := Action ActionLogin.
Definition Logout : t S -> t S := Action ActionLogout.
Definition View : t S -> t S := Action ActionView.
Definition Export : t S -> t S := Action ActionExport.
  End Methods.

End AuditBuilder.

(* ================================================================== *)
(** ** Construction of the repository and of the service *)

(** [context.WithTimeout(context.Background(), d)]: a timeout that is
    not positive gives a context whose deadline has already passed.
    The context of a positive timeout is taken while it is still
    live. *)
Definition context_WithTimeout (timeout : Duration) : context_Context :=
  if timeout <=? 0 then ctx_DeadlineExceeded else ctx_Background.

(** [mongo.Connect] and [client.Ping]: round trips that leave no entry
    in the journal of collection calls. *)
Definition mongo_Connect (ctx : context_Context) : M (option error) :=
  fun _ w => Some (round_trip ctx w).

Definition Client_Ping (ctx : context_Context) : M (option error) :=
  fun _ w => Some (round_trip ctx w).

Definition NewMongoRepository (config : Config)
  : M (option mongoRepository.t * option error) :=
  match Config_Validate config with
  | Some err => ret (None, Some (Errorf_w "invalid config: %w" err))
  | None =>
      do err <- mongo_Connect ctx_Background;
      match err with
      | Some e => ret (None, Some (Errorf_w "failed to connect to MongoDB: %w" e))
      | None =>
          do err <- Client_Ping (context_WithTimeout (ConnectTimeout config));
          match err with
          | Some e => ret (None, Some (Errorf_w "failed to ping MongoDB: %w" e))
          | None =>
              let repo := mongoRepository.mk config in
              if EnableIndexes config then
                do err <- mongoRepository.EnsureIndexes repo ctx_Background;
                match err with
                | Some e => ret (None, Some (Errorf_w "failed to create indexes: %w" e))
                | None => ret (Some repo, None)
                end
              else ret (Some repo, None)
          end
      end
  end.

(** [NewMongoRepository] returns a repository whenever its error is
    nil, so the service made here has one. *)
Definition NewService (config : Config)
  : M (option (auditService.t mongoRepository.t) * option error) :=
  do '(repo, err) <- NewMongoRepository config;
  match err with
  | Some e => ret (None, Some (Errorf_w "failed to create repository: %w" e))
  | None => ret (auditService.mk <$> repo, None)
  end.

(* ================================================================== *)
(** ** The package-level functions

    [defaultService] is the one variable of the package; the functions
    that read it take its value, and the ones that assign it return the
    new value. *)
Module audit.

Section Package.
Context {S : Type} `{AuditService.Impl S}.

Definition SetDefaultService (service : option S) (defaultService : option S) : option S :=
  service.

Definition LogAction (defaultService : option S) (ctx : context_Context)
    (entry : AuditEntry) : M (option error) :=
  match defaultService with
  | None => ret (Some ErrNoServiceConfigured)
  | Some s => AuditService.LogAction s ctx entry
  end.

Definition GetHistory (defaultService : option S) (ctx : context_Context)
    (query : AuditQuery) : M (option AuditQueryResult * option error) :=
  match defaultService with
  | None => ret (None, Some ErrNoServiceConfigured)
  | Some s => AuditService.GetHistory s ctx query
  end.

Definition GetByID (defaultService : option S) (ctx : context_Context) (id : string)
  : M (option AuditEntry * option error) :=
  match defaultService with
  | None => ret (None, Some ErrNoServiceConfigured)
  | Some s => AuditService.GetByID s ctx id
  end.

Definition GetResourceHistory (defaultService : option S) (ctx : context_Context)
    (resourceType resourceID : string) (limit : Z) : M (list AuditEntry * option error) :=
  match defaultService with
  | None => ret ([], Some ErrNoServiceConfigured)
  | Some s => AuditService.GetResourceHistory s ctx resourceType resourceID limit
  end.

Definition GetActorHistory (defaultService : option S) (ctx : context_Context)
    (actorID : string) (actorType : ActorType) (limit : Z)
  : M (list AuditEntry * option error) :=
  match defaultService with
  | None => ret ([], Some ErrNoServiceConfigured)
  | Some s => AuditService.GetActorHistory s ctx actorID actorType limit
  end.

Definition Shutdown (defaultService : option S) (ctx : context_Context) : M (option error) :=
  match defaultService with
  | None => ret None
  | Some s => AuditService.Close s ctx
  end.

End Package.

(** [Initialize] returns the value of [defaultService] after the call
    beside its error. *)
Definition Initialize (config : Config)
    (defaultService : option (auditService.t mongoRepository.t))
  : M (option (auditService.t mongoRepository.t) * option error) :=
  do '(service, err) <- NewService config;
  match err with
  | Some e =>
      ret (defaultService, Some (Errorf_w "failed to initialize audit module: %w" e))
  | None => ret (SetDefaultService service defaultService, None)
  end.

Definition with_uri_and_database (mongoURI databaseName : string) (c : Config) : Config :=
  mkConfig mongoURI databaseName (CollectionName c) (MaxPoolSize c) (MinPoolSize c)
           (ConnectTimeout c) (MaxRetries c) (RetryDelay c) (BatchSize c) (EnableIndexes c).

Definition InitializeWithDefaults (mongoURI databaseName : string)
    (defaultService : option (auditService.t mongoRepository.t))
  : M (option (auditService.t mongoRepository.t) * option error) :=
  Initialize (with_uri_and_database mongoURI databaseName DefaultConfig) defaultService.

End audit.

(* ================================================================== *)
(** ** The specification's vocabulary *)

(** The closed enumerations of section 3 of the specification. *)
Definition actor_types : list ActorType := ["user"; "system"; "service"; "api"; "admin"].
Definition audit_actions : list AuditAction :=
  ["create"; "update"; "delete"; "login"; "logout"; "view"; "export"].

(** An entry that validation must reject: one of the five required
    strings is empty, or the actor type or the action is outside its
    enumeration. *)
Definition entry_defect (e : AuditEntry) : Prop :=
  Entry_Action e = EmptyString
  ∨ Actor_ID (Entry_Actor e) = EmptyString
  ∨ Actor_Type (Entry_Actor e) = EmptyString
  ∨ Resource_Type (Entry_Resource e) = EmptyString
  ∨ Resource_ID (Entry_Resource e) = EmptyString
  ∨ Actor_Type (Entry_Actor e) ∉ actor_types
  ∨ Entry_Action e ∉ audit_actions.

(** A query that validation must reject. *)
Definition query_defect (q : AuditQuery) : Prop :=
  Query_Limit q < 0
  ∨ Query_Offset q < 0
  ∨ (∃ s e, Query_StartTime q = Some s ∧ Query_EndTime q = Some e ∧ e < s)
  ∨ (Query_ActorType q ≠ EmptyString ∧ Query_ActorType q ∉ actor_types)
  ∨ (∃ a, a ∈ Query_Actions q ∧ a ∉ audit_actions).

(** Sample data for the examples. *)
Definition world0 : World := mkWorld [] [] 1000 1%N [].

Definition login_entry : AuditEntry :=
  mkAuditEntry 0%N 0 ActionLogin (mkActor "u1" ActorTypeUser "Ann" EmptyString)
    (mkAuditResource "session" "s1" EmptyString) [] None EmptyString EmptyString
    true EmptyString.

Definition repo0 : mongoRepository.t := mongoRepository.mk DefaultConfig.
Definition spy_service : auditService.t spyRepository.t := auditService.mk spyRepository.mk.
Definition service0 : auditService.t mongoRepository.t := auditService.mk repo0.

(** The entry [Insert] hands to the store: the timestamp and the
    identifier are filled in from the clock and the generator when the
    caller left them zero. *)
Definition with_defaults (w : World) (entry : AuditEntry) : AuditEntry :=
  let entry := if Time_IsZero (Entry_Timestamp entry)
               then set_Timestamp (clock w) entry else entry in
  if ObjectID_IsZero (Entry_ID entry) then set_ID (fresh w) entry else entry.

(** The calls of a retried write whose attempts ended as [outcomes]:
    one [InsertOne] per outcome and one sleep of [d] between two
    consecutive attempts. *)
Fixpoint retry_trace (doc : AuditEntry) (d : Duration) (outcomes : list (option error))
  : list Event :=
  match outcomes with
  | [] => []
  | o :: rest =>
      EvInsertOne doc o ::
      match rest with
      | [] => []
      | _ :: _ => EvSleep d :: retry_trace doc d rest
      end
  end.

Definition is_attempt (ev : Event) : bool :=
  match ev with EvInsertOne _ _ => true | _ => false end.
Definition is_sleep (ev : Event) : bool :=
  match ev with EvSleep _ => true | _ => false end.

(** How many write attempts and how many sleeps a stretch of the
    journal holds. *)
Definition attempts_made (evs : list Event) : nat := length (List.filter is_attempt evs).
Definition sleeps_made (evs : list Event) : nat := length (List.filter is_sleep evs).

(** The calls a run added to the journal. *)
Definition new_events (before after : World) : list Event :=
  drop (length (journal before)) (journal after).

Definition insert_failed_format : string :=
  "failed to insert audit entry after %d attempts: %w".

Definition config_retry (n : Z) (d : Duration) : Config :=
  mkConfig "mongodb://localhost:27017" "audit" "audit_logs" 100 5 (10 * time_Second)
           n d 1000 false.

Definition connection_reset : error := errors_New "connection reset by peer".

(** The world after [Insert] has filled in the defaults: generating an
    identifier advances the generator. *)
Definition after_defaults (w : World) (entry : AuditEntry) : World :=
  if ObjectID_IsZero (Entry_ID entry)
  then mkWorld (documents w) (faults w) (clock w) (N.succ (fresh w)) (journal w)
  else w.

(** A store that is down for the next [k] round trips. *)
Definition world_failing (k : nat) : World :=
  mkWorld [] (replicate k (Some connection_reset)) 1000 1%N [].

(** A syntactically valid document identifier: 24 hexadecimal
    characters. *)
Definition hex_chars : list Ascii.ascii := String.list_ascii_of_string "0123456789abcdefABCDEF".

Definition well_formed_id (id : string) : Prop :=
  String.length id = 24%nat ∧ Forall (λ c, c ∈ hex_chars) (String.list_ascii_of_string id).

(** The next [k] round trips reach the store. *)
Definition calm (k : nat) (w : World) : Prop := Forall (eq None) (take k (faults w)).

Definition invalid_id_format : string := "invalid ID format: %w".
Definition find_failed_format : string := "failed to find audit entry: %w".

(** A string field of a query contributes a clause only when it is
    not empty. *)
Definition nonempty (s : string) : option string :=
  if String.eqb s EmptyString then None else Some s.

(** The keys a query filter can hold. *)
Definition filter_keys : list string :=
  ["actor.id"; "actor.type"; "actor.session_id"; "action"; "resource.type";
   "resource.id"; "success"; "timestamp"].

Definition actor_history_failed_format : string := "failed to find actor history: %w".

(** What a query asks of an entry, field by field: a present field
    must be equal, the action must be one of the listed ones, and the
    timestamp must lie within the bounds given, both inclusive. *)
Definition query_holds (q : AuditQuery) (e : AuditEntry) : Prop :=
  (Query_ActorID q = EmptyString ∨ Actor_ID (Entry_Actor e) = Query_ActorID q)
  ∧ (Query_ActorType q = EmptyString ∨ Actor_Type (Entry_Actor e) = Query_ActorType q)
  ∧ (Query_SessionID q = EmptyString ∨ Actor_SessionID (Entry_Actor e) = Query_SessionID q)
  ∧ (Query_Actions q = [] ∨ Entry_Action e ∈ Query_Actions q)
  ∧ (Query_ResourceType q = EmptyString
     ∨ Resource_Type (Entry_Resource e) = Query_ResourceType q)
  ∧ (Query_ResourceID q = EmptyString ∨ Resource_ID (Entry_Resource e) = Query_ResourceID q)
  ∧ (∀ b, Query_Success q = Some b → Entry_Success e = b)
  ∧ (∀ t, Query_StartTime q = Some t → t ≤ Entry_Timestamp e)
  ∧ (∀ t, Query_EndTime q = Some t → Entry_Timestamp e ≤ t).

(** [a] may stand before [b] in a newest-first listing. *)
Definition not_older (a b : AuditEntry) : Prop := Entry_Timestamp b ≤ Entry_Timestamp a.

(** Two sessions of the same user, ten minutes apart. *)
Definition first_login : AuditEntry := set_Timestamp 600 (set_ID 1%N login_entry).
Definition second_login : AuditEntry := set_Timestamp 1200 (set_ID 2%N login_entry).
Definition two_logins : World := mkWorld [first_login; second_login] [] 2000 3%N [].

Definition query_u1 (limit offset : Z) : AuditQuery :=
  mkAuditQuery "u1" EmptyString EmptyString [] EmptyString EmptyString
               None None None limit offset.

(** A run of [AddChange] calls, one per change, in the order of the
    list. *)
Definition add_changes {S} (cs : list FieldChange) (b : AuditBuilder.t S)
  : AuditBuilder.t S :=
  foldl (λ b c, AuditBuilder.AddChange (Change_Field c) (Change_OldValue c)
                  (Change_NewValue c) b) b cs.

(** At most [limit] entries when [limit] is positive, all of them
    otherwise. *)
Definition limited (limit : Z) (l : list AuditEntry) : list AuditEntry :=
  if 0 <? limit then take (Z.to_nat limit) l else l.

(** The entry is about the resource of this type and identifier. *)
Definition on_resource (resourceType resourceID : string) (e : AuditEntry) : bool :=
  String.eqb (Resource_Type (Entry_Resource e)) resourceType
  && String.eqb (Resource_ID (Entry_Resource e)) resourceID.

(** The entry is by the actor of this identifier, and of this type
    when a type is given. *)
Definition by_actor (actorID : string) (actorType : ActorType) (e : AuditEntry) : bool :=
  String.eqb (Actor_ID (Entry_Actor e)) actorID
  && (String.eqb actorType EmptyString || String.eqb (Actor_Type (Entry_Actor e)) actorType).

(** A query that names no criterion: only its limit and offset may
    be set. *)
Definition no_criteria (q : AuditQuery) : Prop :=
  Query_ActorID q = EmptyString ∧ Query_ActorType q = EmptyString
  ∧ Query_SessionID q = EmptyString ∧ Query_Actions q = []
  ∧ Query_ResourceType q = EmptyString ∧ Query_ResourceID q = EmptyString
  ∧ Query_StartTime q = None ∧ Query_EndTime q = None ∧ Query_Success q = None.

(** The shorthand methods of the builder for the action and for the
    actor. *)
Definition action_shorthands {S} : list (AuditBuilder.t S → AuditBuilder.t S) :=
  [AuditBuilder.Create; AuditBuilder.Update; AuditBuilder.Delete; AuditBuilder.Login;
   AuditBuilder.Logout; AuditBuilder.View; AuditBuilder.Export].

Definition actor_shorthands {S} (id name sessionID : string)
  : list (AuditBuilder.t S → AuditBuilder.t S) :=
  [AuditBuilder.User id name; AuditBuilder.UserWithSession id name sessionID;
   AuditBuilder.System id name; AuditBuilder.Service id name; AuditBuilder.API id name;
   AuditBuilder.Admin id name; AuditBuilder.AdminWithSession id name sessionID].

(* ================================================================== *)
(** ** Builder *)

Section BuilderFacts.
Context {S : Type}.
Implicit Types (b : AuditBuilder.t S) (e : error).

Lemma Build_Success v b :
  Entry_Success (AuditBuilder.Build (AuditBuilder.Success v b)) = v.
Proof. reflexivity. Qed.

Lemma Build_Error_Success e b :
  Entry_Success (AuditBuilder.Build (AuditBuilder.Error (Some e) b)) = false.
Proof. reflexivity. Qed.

Lemma Build_Error_ErrorMsg e b :
  Entry_ErrorMsg (AuditBuilder.Build (AuditBuilder.Error (Some e) b)) = Error_text e.
Proof. reflexivity. Qed.

Lemma Error_nil b : AuditBuilder.Error None b = b.
Proof. reflexivity. Qed.

Lemma Success_keeps_ErrorMsg v b :
  Entry_ErrorMsg (AuditBuilder.Build (AuditBuilder.Success v b))
  = Entry_ErrorMsg (AuditBuilder.Build b).
Proof. reflexivity. Qed.

End BuilderFacts.

(** C1, as stated, fails: after [Error(err)] with a non-nil error, a
    later [Success(true)] sets the flag back to true. *)
Lemma C1_Error_then_Success_counterexample :
  let b : AuditBuilder.t unit := AuditBuilder.mk zeroEntry None in
  let e := errors_New "insufficient permissions" in
  Entry_Success
    (AuditBuilder.Build (AuditBuilder.Success true (AuditBuilder.Error (Some e) b)))
  ≠ false.
Proof. vm_compute. discriminate. Qed.

(** C1 (amended): for every builder state and every non-nil error,
    [Success(true)] followed by [Error(err)] yields success = false and
    the error's text as the message, whatever the flag was before;
    [Error(err)] followed by [Success(v)] yields success = v with the
    message kept: the last call decides the flag. *)
Theorem C1_Error_overrides_earlier_Success :
  ∀ (S : Type) (b : AuditBuilder.t S) (e : error),
    (let after := AuditBuilder.Build
                    (AuditBuilder.Error (Some e) (AuditBuilder.Success true b)) in
     Entry_Success after = false ∧ Entry_ErrorMsg after = Error_text e)
    ∧ (∀ v : bool,
         let after := AuditBuilder.Build
                        (AuditBuilder.Success v (AuditBuilder.Error (Some e) b)) in
         Entry_Success after = v ∧ Entry_ErrorMsg after = Error_text e).
Proof.
  intros S b e. split.
  - split; [apply Build_Error_Success | apply Build_Error_ErrorMsg].
  - intros v. split; [apply Build_Success|].
    rewrite Success_keeps_ErrorMsg. apply Build_Error_ErrorMsg.
Qed.

(* ================================================================== *)
(** ** Validation in the service *)

Lemma String_eqb_false_iff (a b : string) : String.eqb a b = false ↔ a ≠ b.
Proof.
  destruct (String.eqb_spec a b); split; intros; try congruence; try done.
Qed.

Lemma existsb_eqb_elem (x : string) (l : list string) :
  existsb (String.eqb x) l = true ↔ x ∈ l.
Proof.
  rewrite existsb_exists. split.
  - intros (y & Hy & Heq). apply String.eqb_eq in Heq. subst.
    by apply list_elem_of_In.
  - intros Hin. exists x. split; [by apply list_elem_of_In | apply String.eqb_refl].
Qed.

Lemma valid_actor_type_spec (t : ActorType) :
  valid_actor_type t = true ↔ t ∈ actor_types.
Proof. apply existsb_eqb_elem. Qed.

Lemma valid_action_spec (a : AuditAction) :
  valid_action a = true ↔ a ∈ audit_actions.
Proof. apply existsb_eqb_elem. Qed.

Lemma valid_actor_type_false (t : ActorType) :
  valid_actor_type t = false ↔ t ∉ actor_types.
Proof.
  rewrite <- valid_actor_type_spec. destruct (valid_actor_type t); split; congruence.
Qed.

Lemma valid_action_false (a : AuditAction) :
  valid_action a = false ↔ a ∉ audit_actions.
Proof.
  rewrite <- valid_action_spec. destruct (valid_action a); split; congruence.
Qed.

(** [validateAuditEntry] accepts exactly the entries without defect. *)
Lemma validateAuditEntry_None (entry : AuditEntry) :
  auditService.validateAuditEntry entry = None ↔ ¬ entry_defect entry.
Proof.
  unfold auditService.validateAuditEntry, entry_defect.
  rewrite <- !valid_actor_type_false, <- !valid_action_false.
  destruct (String.eqb_spec (Entry_Action entry) EmptyString);
    [split; [discriminate | intros H; destruct H; auto]|].
  destruct (String.eqb_spec (Actor_ID (Entry_Actor entry)) EmptyString);
    [split; [discriminate | intros H; destruct H; auto]|].
  destruct (String.eqb_spec (Actor_Type (Entry_Actor entry)) EmptyString);
    [split; [discriminate | intros H; destruct H; auto]|].
  destruct (String.eqb_spec (Resource_Type (Entry_Resource entry)) EmptyString);
    [split; [discriminate | intros H; destruct H; auto]|].
  destruct (String.eqb_spec (Resource_ID (Entry_Resource entry)) EmptyString);
    [split; [discriminate | intros H; destruct H; auto 10]|].
  destruct (valid_actor_type (Actor_Type (Entry_Actor entry))); simpl;
    [|split; [discriminate | intros H; destruct H; auto 10]].
  destruct (valid_action (Entry_Action entry)); simpl;
    [|split; [discriminate | intros H; destruct H; auto 10]].
  split; [|done]. intros _ H. intuition congruence.
Qed.

Lemma validate_actions_None (actions : list AuditAction) :
  auditService.validate_actions actions = None
  ↔ ¬ ∃ a, a ∈ actions ∧ a ∉ audit_actions.
Proof.
  induction actions as [|a rest IH]; simpl.
  - split; [|done]. intros _ (a & Ha & _). by apply not_elem_of_nil in Ha.
  - destruct (valid_action a) eqn:Hv.
    + rewrite IH. apply valid_action_spec in Hv. split.
      * intros Hn (x & Hx & Hbad). apply elem_of_cons in Hx as [->|Hx]; [done|].
        apply Hn. eauto.
      * intros Hn (x & Hx & Hbad). apply Hn. exists x. split; [|done].
        apply elem_of_cons; auto.
    + apply valid_action_false in Hv. split; [discriminate|].
      intros Hn. exfalso. apply Hn. exists a. split; [|done]. apply elem_of_cons; auto.
Qed.

(** [validateAuditQuery] accepts exactly the queries without defect. *)
Lemma validateAuditQuery_None (query : AuditQuery) :
  auditService.validateAuditQuery query = None ↔ ¬ query_defect query.
Proof.
  unfold auditService.validateAuditQuery, query_defect, Time_After.
  destruct (Z.ltb_spec (Query_Limit query) 0);
    [split; [discriminate | intros H'; destruct H'; auto]|].
  destruct (Z.ltb_spec (Query_Offset query) 0);
    [split; [discriminate | intros H'; destruct H'; auto]|].
  assert (Hrange :
    (match Query_StartTime query, Query_EndTime query with
     | Some s, Some e => e <? s
     | _, _ => false
     end) = true
    ↔ ∃ s e, Query_StartTime query = Some s ∧ Query_EndTime query = Some e ∧ e < s).
  { destruct (Query_StartTime query) as [s|], (Query_EndTime query) as [e|]; simpl;
      try (split; [discriminate | intros (? & ? & ? & ? & ?); discriminate]).
    rewrite Z.ltb_lt. split; [eauto|]. intros (? & ? & ? & ? & ?). congruence. }
  destruct (match Query_StartTime query, Query_EndTime query with
            | Some s, Some e => e <? s
            | _, _ => false
            end) eqn:Hr.
  { split; [discriminate|]. intros Hn. exfalso. apply Hn.
    right; right; left. by apply Hrange. }
  assert (Hnr : ¬ ∃ s e, Query_StartTime query = Some s
                         ∧ Query_EndTime query = Some e ∧ e < s).
  { intros Hex. apply Hrange in Hex. congruence. }
  destruct (String.eqb_spec (Query_ActorType query) EmptyString) as [He|He]; simpl.
  - rewrite validate_actions_None. split.
    + intros Hn [?|[?|[?|[[? _]|?]]]]; try lia; try done.
    + intros Hn Hex. apply Hn. auto 10.
  - destruct (valid_actor_type (Query_ActorType query)) eqn:Hv; simpl.
    + apply valid_actor_type_spec in Hv. rewrite validate_actions_None. split.
      * intros Hn [?|[?|[?|[[_ ?]|?]]]]; try lia; try done.
      * intros Hn Hex. apply Hn. auto 10.
    + apply valid_actor_type_false in Hv. split; [discriminate|].
      intros Hn. exfalso. apply Hn. auto 10.
Qed.

(** C5: [LogAction] on an entry with a defect (an empty action, actor
    id, actor type, resource type or resource id, or an actor type or
    action outside its enumeration; each alone suffices) returns a
    validation error and leaves the world as it was, whatever the
    repository behind the service is, so [Insert] is not invoked; on
    an entry without defect it is the repository's [Insert] on that
    same entry. *)
Theorem C5_LogAction_validates_then_delegates :
  ∀ (R : Type) (impl : AuditRepository.Impl R) (s : auditService.t R)
    (ctx : context_Context) (entry : AuditEntry),
    (entry_defect entry →
       ∃ err : error,
         auditService.validateAuditEntry entry = Some err
         ∧ ∀ fuel w,
             auditService.LogAction s ctx entry fuel w
             = Some (Some (Errorf_w "invalid audit entry: %w" err), w))
    ∧ (¬ entry_defect entry →
         auditService.LogAction s ctx entry
         = AuditRepository.Insert (auditService.repo s) ctx entry).
Proof.
  intros R impl s ctx entry. unfold auditService.LogAction. split.
  - intros Hd.
    destruct (auditService.validateAuditEntry entry) as [err|] eqn:Hv.
    + exists err. split; [done|]. intros fuel w. reflexivity.
    + apply validateAuditEntry_None in Hv. contradiction.
  - intros Hn. apply validateAuditEntry_None in Hn. by rewrite Hn.
Qed.

(** An entry whose only defect is an actor type outside the enumeration
    is rejected with the world untouched, and a well-formed entry goes
    to [Insert]. *)
Lemma C5_witness :
  (∃ err, ∀ fuel w,
      auditService.LogAction service0 ctx_Background
        (set_Actor (mkActor "u1" "robot" "Ann" EmptyString) login_entry) fuel w
      = Some (Some (Errorf_w "invalid audit entry: %w" err), w))
  ∧ auditService.LogAction service0 ctx_Background login_entry
    = mongoRepository.Insert repo0 ctx_Background login_entry.
Proof.
  split.
  - destruct (C5_LogAction_validates_then_delegates _ _ service0 ctx_Background
                (set_Actor (mkActor "u1" "robot" "Ann" EmptyString) login_entry))
      as [Hrej _].
    destruct Hrej as (err & _ & Hall).
    + do 5 right. left. by apply valid_actor_type_false.
    + exists err. exact Hall.
  - destruct (C5_LogAction_validates_then_delegates _ _ service0 ctx_Background login_entry)
      as [_ Hok].
    apply Hok. apply validateAuditEntry_None. reflexivity.
Defined.

(** Seen through a repository that journals its calls: a rejected
    entry leaves no call behind, an accepted one exactly one [Insert]. *)
Example LogAction_rejected_makes_no_call :
  auditService.LogAction spy_service ctx_Background
    (set_Action EmptyString login_entry) 0%nat world0
  = Some (Some (Errorf_w "invalid audit entry: %w" (errors_New "action cannot be empty")),
          world0).
Proof. reflexivity. Qed.

Example LogAction_accepted_calls_Insert :
  (λ '(res, w), (res, journal w)) <$>
    auditService.LogAction spy_service ctx_Background login_entry 0%nat world0
  = Some (None, [EvRepositoryCall "Insert"]).
Proof. reflexivity. Qed.

(** C6: [GetHistory] on a query with a negative limit, a negative
    offset, a start time strictly after the end time, a non-empty actor
    type outside the enumeration, or a listed action outside the
    enumeration returns a validation error and leaves the world as it
    was, whatever the repository is, so [FindByQuery] is not called;
    every other query (in particular one whose start and end time
    coincide) is the repository's [FindByQuery] on that query. *)
Theorem C6_GetHistory_validates_then_delegates :
  ∀ (R : Type) (impl : AuditRepository.Impl R) (s : auditService.t R)
    (ctx : context_Context) (query : AuditQuery),
    (query_defect query →
       ∃ err : error,
         auditService.validateAuditQuery query = Some err
         ∧ ∀ fuel w,
             auditService.GetHistory s ctx query fuel w
             = Some ((None, Some (Errorf_w "invalid query: %w" err)), w))
    ∧ (¬ query_defect query →
         auditService.GetHistory s ctx query
         = AuditRepository.FindByQuery (auditService.repo s) ctx query).
Proof.
  intros R impl s ctx query. unfold auditService.GetHistory. split.
  - intros Hd.
    destruct (auditService.validateAuditQuery query) as [err|] eqn:Hv.
    + exists err. split; [done|]. intros fuel w. reflexivity.
    + apply validateAuditQuery_None in Hv. contradiction.
  - intros Hn. apply validateAuditQuery_None in Hn. by rewrite Hn.
Qed.

(** A query with a negative limit is rejected with the world untouched;
    a query whose start and end time are the same instant is passed to
    [FindByQuery]. *)
Lemma C6_witness :
  (∃ err, ∀ fuel w,
      auditService.GetHistory service0 ctx_Background
        (mkAuditQuery "u1" EmptyString EmptyString [] EmptyString EmptyString
                      None None None (-1) 0) fuel w
      = Some ((None, Some (Errorf_w "invalid query: %w" err)), w))
  ∧ auditService.GetHistory service0 ctx_Background
      (mkAuditQuery "u1" ActorTypeUser EmptyString [ActionLogin; ActionUpdate]
                    EmptyString EmptyString (Some 5) (Some 5) None 10 0)
    = mongoRepository.FindByQuery repo0 ctx_Background
        (mkAuditQuery "u1" ActorTypeUser EmptyString [ActionLogin; ActionUpdate]
                      EmptyString EmptyString (Some 5) (Some 5) None 10 0).
Proof.
  split.
  - destruct (C6_GetHistory_validates_then_delegates _ _ service0 ctx_Background
                (mkAuditQuery "u1" EmptyString EmptyString [] EmptyString EmptyString
                              None None None (-1) 0)) as [Hrej _].
    destruct Hrej as (err & _ & Hall).
    + left. simpl. lia.
    + exists err. exact Hall.
  - destruct (C6_GetHistory_validates_then_delegates _ _ service0 ctx_Background
                (mkAuditQuery "u1" ActorTypeUser EmptyString [ActionLogin; ActionUpdate]
                              EmptyString EmptyString (Some 5) (Some 5) None 10 0))
      as [_ Hok].
    apply Hok. apply validateAuditQuery_None. reflexivity.
Defined.

(** Seen through a repository that journals its calls: a rejected
    query leaves no call behind, an accepted one exactly one
    [FindByQuery]. *)
Example GetHistory_rejected_makes_no_call :
  auditService.GetHistory spy_service ctx_Background
    (mkAuditQuery EmptyString EmptyString EmptyString [ActionLogin; "purge"]
                  EmptyString EmptyString None None None 0 0) 0%nat world0
  = Some ((None, Some (Errorf_w "invalid query: %w"
                         (Errorf_s "invalid action: %s" "purge"))), world0).
Proof. reflexivity. Qed.

Example GetHistory_accepted_calls_FindByQuery :
  (λ '(res, w), (res, journal w)) <$>
    auditService.GetHistory spy_service ctx_Background (query_u1 10 0) 0%nat world0
  = Some ((None, None), [EvRepositoryCall "FindByQuery"]).
Proof. reflexivity. Qed.

(* ================================================================== *)
(** ** Insert: the retry loop *)

Lemma wrap_int_id (z : Z) : is_int z → wrap_int z = z.
Proof.
  unfold is_int, wrap_int, min_int, max_int, int_bits. intros Hz.
  change (2 ^ (64 - 1)) with 9223372036854775808 in *.
  change (2 ^ 64) with 18446744073709551616.
  rewrite Z.mod_small; lia.
Qed.

Lemma retry_trace_cons doc d o o' rest :
  retry_trace doc d (o :: o' :: rest)
  = EvInsertOne doc o :: EvSleep d :: retry_trace doc d (o' :: rest).
Proof. reflexivity. Qed.

Lemma retry_trace_counts doc d outcomes :
  attempts_made (retry_trace doc d outcomes) = length outcomes
  ∧ sleeps_made (retry_trace doc d outcomes) = pred (length outcomes).
Proof.
  unfold attempts_made, sleeps_made.
  induction outcomes as [|o [|o' rest] IH]; [done | done |].
  rewrite retry_trace_cons. destruct IH as [IHa IHs]. cbn [List.filter is_attempt is_sleep length].
  rewrite IHa, IHs. done.
Qed.

Lemma new_events_app (w w' : World) (evs : list Event) :
  journal w' = journal w ++ evs → new_events w w' = evs.
Proof. unfold new_events. intros ->. by rewrite drop_app_length. Qed.

(** One call of [InsertOne]: it always returns, journals itself with its
    outcome, stores the document exactly when it succeeds, and fails
    with the context's error when the context is done. *)
Lemma Collection_InsertOne_spec ctx doc fuel w :
  ∃ o w1,
    Collection_InsertOne ctx doc fuel w = Some (o, w1)
    ∧ journal w1 = journal w ++ [EvInsertOne doc o]
    ∧ documents w1 = match o with
                     | None => documents w ++ [doc]
                     | Some _ => documents w
                     end
    ∧ clock w1 = clock w
    ∧ (∀ e, ctx_Err ctx = Some e → o = Some e).
Proof.
  unfold Collection_InsertOne, round_trip.
  destruct (ctx_Err ctx) as [e|] eqn:Hctx.
  - eexists _, _. split; [reflexivity|]. simpl. repeat split; congruence.
  - destruct (faults w) as [|[f|] rest] eqn:Hf; simpl.
    + destruct (existsb _ _); eexists _, _; (split; [reflexivity|]); simpl;
        repeat split; congruence.
    + eexists _, _. split; [reflexivity|]. simpl. repeat split; congruence.
    + destruct (existsb _ _); eexists _, _; (split; [reflexivity|]); simpl;
        repeat split; congruence.
Qed.

(** The four ways one turn of the loop can go. *)
Lemma Insert_loop_exit r ctx doc budget a err fuel w :
  MaxRetries (mongoRepository.config r) < a →
  mongoRepository.Insert_loop r ctx doc (S budget) a err fuel w
  = Some (Some (Errorf_dw insert_failed_format
                  (wrap_int (MaxRetries (mongoRepository.config r) + 1)) err), w).
Proof.
  intros Ha. cbn [mongoRepository.Insert_loop].
  by rewrite (proj2 (Z.leb_gt _ _) Ha).
Qed.

Lemma Insert_loop_success r ctx doc budget a err fuel w w1 :
  a ≤ MaxRetries (mongoRepository.config r) →
  Collection_InsertOne ctx doc fuel w = Some (None, w1) →
  mongoRepository.Insert_loop r ctx doc (S budget) a err fuel w = Some (None, w1).
Proof.
  intros Ha Hins. cbn [mongoRepository.Insert_loop].
  rewrite (proj2 (Z.leb_le _ _) Ha). unfold bind at 1. by rewrite Hins.
Qed.

Lemma Insert_loop_retry r ctx doc budget a err fuel w w1 e :
  a < MaxRetries (mongoRepository.config r) →
  Collection_InsertOne ctx doc fuel w = Some (Some e, w1) →
  mongoRepository.Insert_loop r ctx doc (S budget) a err fuel w
  = mongoRepository.Insert_loop r ctx doc budget (wrap_int (a + 1)) (Some e) fuel
      (record (EvSleep (RetryDelay (mongoRepository.config r)))
         (mkWorld (documents w1) (faults w1)
                  (clock w1 + Z.max (RetryDelay (mongoRepository.config r)) 0)
                  (fresh w1) (journal w1))).
Proof.
  intros Ha Hins. cbn [mongoRepository.Insert_loop].
  rewrite (proj2 (Z.leb_le a _)) by lia. unfold bind at 1. rewrite Hins.
  rewrite (proj2 (Z.ltb_lt _ _) Ha). reflexivity.
Qed.

Lemma Insert_loop_last r ctx doc budget a err fuel w w1 e :
  a = MaxRetries (mongoRepository.config r) →
  Collection_InsertOne ctx doc fuel w = Some (Some e, w1) →
  mongoRepository.Insert_loop r ctx doc (S budget) a err fuel w
  = mongoRepository.Insert_loop r ctx doc budget (wrap_int (a + 1)) (Some e) fuel w1.
Proof.
  intros -> Hins. cbn [mongoRepository.Insert_loop].
  rewrite Z.leb_refl. unfold bind at 1. rewrite Hins.
  rewrite Z.ltb_irrefl. reflexivity.
Qed.

(** The loop from counter value [a ≤ n]: it returns within
    [n - a + 2] units of budget, after the failed attempts [failures]
    and one last attempt [final]. *)
Lemma Insert_loop_spec r ctx doc n :
  MaxRetries (mongoRepository.config r) = n → 0 ≤ n → is_int (n + 1) →
  ∀ (k : nat) (a : Z) (err : option error) (budget fuel : nat) (w : World),
    0 ≤ a ≤ n → k = Z.to_nat (n - a) → (k + 2 ≤ budget)%nat →
    ∃ (failures : list error) (final : option error) (res : option error) (w' : World),
      mongoRepository.Insert_loop r ctx doc budget a err fuel w = Some (res, w')
      ∧ journal w' = journal w
                     ++ retry_trace doc (RetryDelay (mongoRepository.config r))
                          ((Some <$> failures) ++ [final])
      ∧ a + Z.of_nat (length failures) ≤ n
      ∧ (∀ e, ctx_Err ctx = Some e → final = Some e ∧ Forall (eq e) failures)
      ∧ match final with
        | None => res = None ∧ documents w' = documents w ++ [doc]
        | Some e =>
            a + Z.of_nat (length failures) = n
            ∧ res = Some (Errorf_dw insert_failed_format (n + 1) (Some e))
            ∧ documents w' = documents w
        end.
Proof.
  intros Hn Hn0 Hint k. induction k as [|k IH]; intros a err budget fuel w Ha Hk Hb.
  - (* a = n: the last turn *)
    assert (a = n) as -> by lia.
    destruct budget as [|[|budget]]; [lia | lia |].
    destruct (Collection_InsertOne_spec ctx doc fuel w) as (o & w1 & Hins & Hj & Hd & _ & Hc).
    destruct o as [e|].
    + exists [], (Some e), (Some (Errorf_dw insert_failed_format (n + 1) (Some e))), w1.
      split.
      { rewrite (Insert_loop_last _ _ _ _ _ _ _ _ _ _ (eq_sym Hn) Hins).
        rewrite wrap_int_id by done.
        rewrite Insert_loop_exit by lia. rewrite Hn. by rewrite wrap_int_id. }
      split; [by rewrite Hj|]. split; [simpl; lia|].
      split; [intros e0 He0; split; [by apply Hc | constructor]|].
      simpl. split; [lia|done].
    + exists [], None, None, w1.
      split; [apply Insert_loop_success; [lia|done]|]. split; [by rewrite Hj|].
      split; [simpl; lia|].
      split; [intros e0 He0; specialize (Hc e0 He0); discriminate|]. done.
  - (* a < n: a failure sleeps and goes round again *)
    assert (a < n) by lia.
    destruct budget as [|budget]; [lia|].
    destruct (Collection_InsertOne_spec ctx doc fuel w) as (o & w1 & Hins & Hj & Hd & _ & Hc).
    destruct o as [e|].
    + assert (is_int (a + 1)) as Hia
        by (unfold is_int, min_int, max_int, int_bits in *; lia).
      pose proof (Insert_loop_retry r ctx doc budget a err fuel w w1 e) as Hstep.
      rewrite Hn in Hstep. specialize (Hstep ltac:(lia) Hins).
      rewrite wrap_int_id in Hstep by done.
      set (w2 := record _ _) in Hstep.
      destruct (IH (a + 1) (Some e) budget fuel w2) as
        (failures & final & res & w' & Hrun & Hj' & Hlen & Hctx & Hfin); [lia | lia | lia |].
      exists (e :: failures), final, res, w'.
      split; [by rewrite Hstep|].
      split.
      { rewrite Hj'. subst w2. simpl. rewrite Hj. rewrite <- !app_assoc. f_equal.
        destruct failures; reflexivity. }
      split; [simpl length; lia|].
      split.
      { intros e0 He0. destruct (Hctx e0 He0) as [-> Hall]. split; [done|].
        constructor; [|done]. specialize (Hc e0 He0). congruence. }
      destruct final as [ef|].
      * destruct Hfin as (Hl & -> & Hdocs). split; [simpl length; lia|]. split; [done|].
        rewrite Hdocs. subst w2. simpl. by rewrite Hd.
      * destruct Hfin as (-> & Hdocs). split; [done|].
        rewrite Hdocs. subst w2. simpl. by rewrite Hd.
    + exists [], None, None, w1.
      split; [apply Insert_loop_success; [lia|done]|]. split; [by rewrite Hj|].
      split; [simpl; lia|].
      split; [intros e0 He0; specialize (Hc e0 He0); discriminate|]. done.
Qed.

Lemma Insert_unfold r ctx entry fuel w :
  mongoRepository.Insert r ctx entry fuel w
  = mongoRepository.Insert_loop r ctx (with_defaults w entry) fuel 0 None fuel
      (after_defaults w entry).
Proof.
  unfold mongoRepository.Insert, with_defaults, after_defaults, bind, ret,
    time_Now, primitive_NewObjectID.
  destruct (Time_IsZero (Entry_Timestamp entry)); simpl;
    destruct (ObjectID_IsZero (Entry_ID entry)); reflexivity.
Qed.

Lemma after_defaults_journal w entry : journal (after_defaults w entry) = journal w.
Proof. unfold after_defaults. by destruct (ObjectID_IsZero _). Qed.

Lemma after_defaults_documents w entry : documents (after_defaults w entry) = documents w.
Proof. unfold after_defaults. by destruct (ObjectID_IsZero _). Qed.

Lemma Forall_eq_replicate {A} (x : A) (l : list A) :
  Forall (eq x) l → l = replicate (length l) x.
Proof. induction 1 as [|y l <- _ IH]; simpl; [done | by rewrite <- IH]. Qed.

Lemma replicate_snoc {A} (k : nat) (x : A) : replicate k x ++ [x] = replicate (S k) x.
Proof. induction k as [|k IH]; simpl; [done | by rewrite IH]. Qed.

(** *** Insert against a store that is down for a while *)

Lemma InsertOne_fault doc fuel w e rest :
  faults w = Some e :: rest →
  Collection_InsertOne ctx_Background doc fuel w
  = Some (Some e, record (EvInsertOne doc (Some e))
                    (mkWorld (documents w) rest (clock w) (fresh w) (journal w))).
Proof. unfold Collection_InsertOne, round_trip. simpl. by intros ->. Qed.

Lemma InsertOne_stored doc fuel w rest :
  faults w = None :: rest →
  Forall (λ d, Entry_ID d ≠ Entry_ID doc) (documents w) →
  Collection_InsertOne ctx_Background doc fuel w
  = Some (None, record (EvInsertOne doc None)
                  (mkWorld (documents w ++ [doc]) rest (clock w) (fresh w) (journal w))).
Proof.
  unfold Collection_InsertOne, round_trip. simpl. intros -> Hfresh. simpl.
  assert (existsb (λ d, (Entry_ID d =? Entry_ID doc)%N) (documents w) = false) as ->; [|done].
  induction Hfresh as [|d l Hd _ IH]; simpl; [done|].
  rewrite IH. by rewrite (proj2 (N.eqb_neq _ _) Hd).
Qed.

(** From counter value [a], [k] failures and then a success. *)
Lemma Insert_loop_transient r doc n e :
  MaxRetries (mongoRepository.config r) = n → is_int (n + 1) →
  ∀ (k : nat) (a : Z) (err : option error) (budget fuel : nat) (w : World) rest,
    0 ≤ a → a + Z.of_nat k ≤ n → (k + 1 ≤ budget)%nat →
    faults w = replicate k (Some e) ++ None :: rest →
    Forall (λ d, Entry_ID d ≠ Entry_ID doc) (documents w) →
    ∃ w',
      mongoRepository.Insert_loop r ctx_Background doc budget a err fuel w
      = Some (None, w')
      ∧ journal w' = journal w
                     ++ retry_trace doc (RetryDelay (mongoRepository.config r))
                          (replicate k (Some e) ++ [None])
      ∧ documents w' = documents w ++ [doc]
      ∧ faults w' = rest.
Proof.
  intros Hn Hint k. induction k as [|k IH]; intros a err budget fuel w rest Ha Hak Hb Hf Hfresh.
  - destruct budget as [|budget]; [lia|]. simpl in Hf.
    eexists. split.
    { apply Insert_loop_success; [lia|]. by apply InsertOne_stored. }
    simpl. done.
  - destruct budget as [|budget]; [lia|]. simpl in Hf.
    pose proof (Insert_loop_retry r ctx_Background doc budget a err fuel w _ e
                  ltac:(lia) (InsertOne_fault doc fuel w e _ Hf)) as Hstep.
    rewrite wrap_int_id in Hstep
      by (unfold is_int, min_int, max_int, int_bits in *; lia).
    set (w2 := record (EvSleep _) _) in Hstep.
    destruct (IH (a + 1) (Some e) budget fuel w2 rest) as (w' & Hrun & Hj & Hd & Hrest);
      [lia | lia | lia | done | done |].
    exists w'. split; [by rewrite Hstep|]. split; [|done].
    rewrite Hj. subst w2. simpl. rewrite <- !app_assoc. f_equal.
    destruct k; reflexivity.
Qed.

(** [MaxRetries] transient failures and then a success: [Insert]
    reports success after exactly [MaxRetries + 1] attempts and
    [MaxRetries] sleeps, and the entry is stored once. *)
Lemma Insert_succeeds_after_transient_failures r entry n e fuel w rest :
  MaxRetries (mongoRepository.config r) = n → 0 ≤ n → is_int (n + 1) →
  (Z.to_nat n + 1 ≤ fuel)%nat →
  faults w = replicate (Z.to_nat n) (Some e) ++ None :: rest →
  Forall (λ d, Entry_ID d ≠ Entry_ID (with_defaults w entry)) (documents w) →
  ∃ w',
    mongoRepository.Insert r ctx_Background entry fuel w = Some (None, w')
    ∧ attempts_made (new_events w w') = S (Z.to_nat n)
    ∧ sleeps_made (new_events w w') = Z.to_nat n
    ∧ documents w' = documents w ++ [with_defaults w entry].
Proof.
  intros Hn Hn0 Hint Hfuel Hf Hfresh.
  destruct (Insert_loop_transient r (with_defaults w entry) n e Hn Hint (Z.to_nat n)
              0 None fuel fuel (after_defaults w entry) rest)
    as (w' & Hrun & Hj & Hd & _); [lia | lia | lia | | |].
  { unfold after_defaults. by destruct (ObjectID_IsZero _). }
  { by rewrite after_defaults_documents. }
  rewrite after_defaults_journal in Hj. rewrite after_defaults_documents in Hd.
  exists w'. split; [by rewrite Insert_unfold|].
  rewrite (new_events_app _ _ _ Hj).
  destruct (retry_trace_counts (with_defaults w entry)
              (RetryDelay (mongoRepository.config r)) (replicate (Z.to_nat n) (Some e) ++ [None]))
    as [Hat Hsl].
  rewrite length_app, length_replicate in Hat, Hsl. simpl in Hat, Hsl.
  split; [rewrite Hat; lia|]. split; [rewrite Hsl; lia | done].
Qed.

(** C3: with [MaxRetries = n ≥ 0] (and [n + 1] a Go int), [Insert]
    returns; it has made [length failures + 1 ≤ n + 1] attempts to
    write the entry, with one sleep of [RetryDelay] between two
    consecutive attempts and nothing else; every attempt but the last
    failed.  If the last attempt succeeded, [Insert] returns nil right
    after it and the entry is stored; otherwise all [n + 1] attempts
    failed and [Insert] returns the error of the last one wrapped with
    the count [n + 1]. *)
Theorem C3_Insert_retries_with_fixed_delay :
  ∀ (r : mongoRepository.t) (ctx : context_Context) (entry : AuditEntry) (n : Z),
    MaxRetries (mongoRepository.config r) = n → 0 ≤ n → is_int (n + 1) →
    ∀ (fuel : nat) (w : World), (Z.to_nat n + 2 ≤ fuel)%nat →
      ∃ (failures : list error) (final : option error) (res : option error) (w' : World),
        mongoRepository.Insert r ctx entry fuel w = Some (res, w')
        ∧ new_events w w'
          = retry_trace (with_defaults w entry) (RetryDelay (mongoRepository.config r))
              ((Some <$> failures) ++ [final])
        ∧ attempts_made (new_events w w') = S (length failures)
        ∧ sleeps_made (new_events w w') = length failures
        ∧ Z.of_nat (S (length failures)) ≤ n + 1
        ∧ match final with
          | None =>
              res = None ∧ documents w' = documents w ++ [with_defaults w entry]
          | Some e =>
              Z.of_nat (S (length failures)) = n + 1
              ∧ res = Some (Errorf_dw insert_failed_format (n + 1) (Some e))
              ∧ documents w' = documents w
          end.
Proof.
  intros r ctx entry n Hn Hn0 Hint fuel w Hfuel.
  destruct (Insert_loop_spec r ctx (with_defaults w entry) n Hn Hn0 Hint
              (Z.to_nat n) 0 None fuel fuel (after_defaults w entry))
    as (failures & final & res & w' & Hrun & Hj & Hlen & _ & Hfin);
    [lia | f_equal; lia | lia |].
  rewrite after_defaults_journal in Hj. rewrite after_defaults_documents in Hfin.
  exists failures, final, res, w'.
  split; [by rewrite Insert_unfold|].
  rewrite (new_events_app _ _ _ Hj).
  split; [done|].
  destruct (retry_trace_counts (with_defaults w entry)
              (RetryDelay (mongoRepository.config r)) ((Some <$> failures) ++ [final]))
    as [Ha Hs].
  rewrite length_app, length_fmap in Ha, Hs. simpl in Ha, Hs.
  split; [rewrite Ha; lia|]. split; [rewrite Hs; lia|].
  split; [lia|].
  destruct final as [e|]; [|done].
  destruct Hfin as (Hl & Hres & Hdocs). split; [lia|done].
Qed.

(** With three retries configured and a store that is down for three
    round trips, the run is covered by C3. *)
Lemma C3_witness :
  ∃ (failures : list error) (final : option error) (res : option error) (w' : World),
    mongoRepository.Insert (mongoRepository.mk (config_retry 3 500)) ctx_Background
      login_entry 5%nat (world_failing 3) = Some (res, w')
    ∧ new_events (world_failing 3) w'
      = retry_trace (with_defaults (world_failing 3) login_entry) 500
          ((Some <$> failures) ++ [final])
    ∧ attempts_made (new_events (world_failing 3) w') = S (length failures)
    ∧ sleeps_made (new_events (world_failing 3) w') = length failures
    ∧ Z.of_nat (S (length failures)) ≤ 3 + 1
    ∧ match final with
      | None =>
          res = None
          ∧ documents w' = documents (world_failing 3)
                           ++ [with_defaults (world_failing 3) login_entry]
      | Some e =>
          Z.of_nat (S (length failures)) = 3 + 1
          ∧ res = Some (Errorf_dw insert_failed_format (3 + 1) (Some e))
          ∧ documents w' = documents (world_failing 3)
      end.
Proof.
  apply (C3_Insert_retries_with_fixed_delay
           (mongoRepository.mk (config_retry 3 500)) ctx_Background login_entry 3).
  - reflexivity.
  - lia.
  - split; by vm_compute.
  - simpl. lia.
Defined.

(** The two runs of section 8: [MaxRetries] transient failures and then
    a success report success after exactly [MaxRetries + 1] attempts;
    [MaxRetries + 1] failures report the failure and name that count. *)
Example Insert_succeeds_on_last_attempt :
  ∃ w',
    mongoRepository.Insert (mongoRepository.mk (config_retry 3 500)) ctx_Background
      login_entry 5%nat (world_failing 3) = Some (None, w')
    ∧ attempts_made (journal w') = 4%nat
    ∧ sleeps_made (journal w') = 3%nat
    ∧ length (documents w') = 1%nat.
Proof. eexists. split; [vm_compute; reflexivity|]. by vm_compute. Qed.

Example Insert_fails_after_all_attempts :
  ∃ res w',
    mongoRepository.Insert (mongoRepository.mk (config_retry 3 500)) ctx_Background
      login_entry 5%nat (world_failing 4) = Some (Some res, w')
    ∧ Error_text res
      = "failed to insert audit entry after 4 attempts: connection reset by peer"
    ∧ attempts_made (journal w') = 4%nat
    ∧ sleeps_made (journal w') = 3%nat
    ∧ documents w' = [].
Proof. eexists _, _. split; [vm_compute; reflexivity|]. by vm_compute. Qed.

(** C2, as stated, fails: with an already cancelled context and three
    retries configured, [Insert] still sleeps three times and makes
    four attempts. *)
Lemma C2_cancelled_context_counterexample :
  ¬ (∀ (r : mongoRepository.t) (ctx : context_Context) (entry : AuditEntry)
       (fuel : nat) (w : World) (res : option error) (w' : World),
       ctx_Err ctx = Some context_Canceled →
       mongoRepository.Insert r ctx entry fuel w = Some (res, w') →
       sleeps_made (new_events w w') = 0%nat
       ∧ (attempts_made (new_events w w') ≤ 1)%nat).
Proof.
  intros Hclaim.
  pose proof (Hclaim (mongoRepository.mk (config_retry 3 500)) ctx_Canceled login_entry
                5%nat world0) as H.
  destruct (mongoRepository.Insert _ _ _ _ _) as [[res w']|] eqn:Hrun;
    [|vm_compute in Hrun; discriminate].
  specialize (H res w' eq_refl eq_refl) as [Hsleeps _].
  vm_compute in Hrun. injection Hrun as _ <-.
  vm_compute in Hsleeps. discriminate Hsleeps.
Qed.

(** C2 (amended): with a context that is already done (cancelled or
    past its deadline), every attempt of [Insert] is handed that context
    and fails with the context's error, nothing is stored, and [Insert]
    returns that error wrapped with the attempt count, a failure of the
    cancellation kind; [Insert] itself does not look at the context: it
    still makes all [MaxRetries + 1] attempts and sleeps [RetryDelay]
    between consecutive attempts. *)
Theorem C2_Insert_done_context_still_retries :
  ∀ (r : mongoRepository.t) (ctx : context_Context) (entry : AuditEntry)
    (n : Z) (e : error),
    ctx_Err ctx = Some e →
    MaxRetries (mongoRepository.config r) = n → 0 ≤ n → is_int (n + 1) →
    ∀ (fuel : nat) (w : World), (Z.to_nat n + 2 ≤ fuel)%nat →
      ∃ w' : World,
        mongoRepository.Insert r ctx entry fuel w
        = Some (Some (Errorf_dw insert_failed_format (n + 1) (Some e)), w')
        ∧ errors_Is (Errorf_dw insert_failed_format (n + 1) (Some e)) e = true
        ∧ new_events w w'
          = retry_trace (with_defaults w entry) (RetryDelay (mongoRepository.config r))
              (replicate (S (Z.to_nat n)) (Some e))
        ∧ attempts_made (new_events w w') = S (Z.to_nat n)
        ∧ sleeps_made (new_events w w') = Z.to_nat n
        ∧ documents w' = documents w.
Proof.
  intros r ctx entry n e Hctx Hn Hn0 Hint fuel w Hfuel.
  destruct (Insert_loop_spec r ctx (with_defaults w entry) n Hn Hn0 Hint
              (Z.to_nat n) 0 None fuel fuel (after_defaults w entry))
    as (failures & final & res & w' & Hrun & Hj & Hlen & Hdone & Hfin);
    [lia | f_equal; lia | lia |].
  rewrite after_defaults_journal in Hj. rewrite after_defaults_documents in Hfin.
  destruct (Hdone e Hctx) as [-> Hall].
  destruct Hfin as (Hl & -> & Hdocs).
  assert (length failures = Z.to_nat n) as Hlf by lia.
  apply Forall_eq_replicate in Hall. rewrite Hlf in Hall.
  assert ((Some <$> failures) ++ [Some e] = replicate (S (Z.to_nat n)) (Some e)) as Hout.
  { rewrite Hall, fmap_replicate. apply replicate_snoc. }
  rewrite Hout in Hj.
  exists w'. split; [by rewrite Insert_unfold|].
  split.
  { cbn [errors_Is]. destruct (errors_Is e e) eqn:Hee.
    - by rewrite orb_true_r.
    - destruct e; cbn [errors_Is] in Hee;
        by rewrite bool_decide_eq_true_2 in Hee. }
  rewrite (new_events_app _ _ _ Hj). split; [done|].
  destruct (retry_trace_counts (with_defaults w entry)
              (RetryDelay (mongoRepository.config r)) (replicate (S (Z.to_nat n)) (Some e)))
    as [Ha Hs].
  rewrite length_replicate in Ha, Hs. done.
Qed.

(** The run of the counterexample: four attempts, three sleeps, and a
    failure that wraps [context.Canceled]. *)
Lemma C2_witness :
  ∃ w' : World,
    mongoRepository.Insert (mongoRepository.mk (config_retry 3 500)) ctx_Canceled
      login_entry 5%nat world0
    = Some (Some (Errorf_dw insert_failed_format (3 + 1) (Some context_Canceled)), w')
    ∧ errors_Is (Errorf_dw insert_failed_format (3 + 1) (Some context_Canceled))
        context_Canceled = true
    ∧ new_events world0 w'
      = retry_trace (with_defaults world0 login_entry) 500
          (replicate (S (Z.to_nat 3)) (Some context_Canceled))
    ∧ attempts_made (new_events world0 w') = S (Z.to_nat 3)
    ∧ sleeps_made (new_events world0 w') = Z.to_nat 3
    ∧ documents w' = documents world0.
Proof.
  apply (C2_Insert_done_context_still_retries
           (mongoRepository.mk (config_retry 3 500)) ctx_Canceled login_entry 3
           context_Canceled).
  - reflexivity.
  - reflexivity.
  - lia.
  - split; by vm_compute.
  - simpl. lia.
Defined.

(* ================================================================== *)
(** ** Point lookup *)

Lemma hex_digit_is_Some (c : Ascii.ascii) : is_Some (hex_digit c) ↔ c ∈ hex_chars.
Proof.
  destruct c as [[] [] [] [] [] [] [] []];
    apply (bool_decide_unpack _); vm_compute; exact I.
Qed.

Lemma hex_Decode_ok (s : string) (acc : N) :
  (∃ id, hex_Decode s acc = inl id) ↔ Forall (λ c, c ∈ hex_chars) (String.list_ascii_of_string s).
Proof.
  revert acc. induction s as [|c s IH]; intros acc; simpl.
  - split; [constructor | eauto].
  - rewrite Forall_cons, <- hex_digit_is_Some.
    destruct (hex_digit c) as [d|].
    + rewrite IH. split; [intros Hs; split; [by eexists | done] | by intros [_ Hs]].
    + split; [intros [id Hid]; discriminate | intros [[d Hd] _]; discriminate].
Qed.

(** [ObjectIDFromHex] succeeds exactly on the well-formed identifiers. *)
Lemma ObjectIDFromHex_ok (id : string) :
  snd (primitive_ObjectIDFromHex id) = None ↔ well_formed_id id.
Proof.
  unfold primitive_ObjectIDFromHex, well_formed_id.
  destruct (Nat.eqb_spec (String.length id) 24) as [Hlen|Hlen]; simpl.
  - rewrite <- (hex_Decode_ok id 0%N).
    destruct (hex_Decode id 0%N) as [oid|e]; simpl.
    + split; [intros _; split; [done | by eexists] | done].
    + split; [discriminate | intros [_ [oid Hoid]]; discriminate].
  - split; [discriminate | intros [Hl _]; contradiction].
Qed.

Lemma ObjectIDFromHex_error (id : string) :
  ¬ well_formed_id id →
  ∃ e, primitive_ObjectIDFromHex id = (NilObjectID, Some e).
Proof.
  intros Hbad. rewrite <- ObjectIDFromHex_ok in Hbad.
  unfold primitive_ObjectIDFromHex in *.
  destruct (negb (String.length id =? 24)%nat); [by eexists|].
  destruct (hex_Decode id 0%N) as [oid|e]; [done | by eexists].
Qed.

(** C9: for every non-empty identifier string that is not 24
    hexadecimal characters, [FindByID], and [GetByID] through it,
    returns an error of the form "invalid ID format: ..." without
    reaching the store; the result is not the not-found sentinel. *)
Theorem C9_malformed_id_is_an_error :
  ∀ (r : mongoRepository.t) (ctx : context_Context) (id : string),
    id ≠ EmptyString → ¬ well_formed_id id →
    ∃ e : error,
      (∀ fuel w,
         mongoRepository.FindByID r ctx id fuel w
         = Some ((None, Some (Errorf_w invalid_id_format e)), w))
      ∧ (∀ fuel w,
           auditService.GetByID (auditService.mk r) ctx id fuel w
           = Some ((None, Some (Errorf_w invalid_id_format e)), w))
      ∧ (None, Some (Errorf_w invalid_id_format e))
        ≠ (None : option AuditEntry, None : option error).
Proof.
  intros r ctx id Hne Hbad.
  destruct (ObjectIDFromHex_error id Hbad) as [e He].
  assert (Hfind : ∀ fuel w,
             mongoRepository.FindByID r ctx id fuel w
             = Some ((None, Some (Errorf_w invalid_id_format e)), w)).
  { intros fuel w. unfold mongoRepository.FindByID. by rewrite He. }
  exists e. split; [exact Hfind|]. split; [|discriminate].
  intros fuel w. unfold auditService.GetByID.
  apply String_eqb_false_iff in Hne. rewrite Hne. apply Hfind.
Qed.

(** Neither a short string nor a 24-character string with a letter
    outside the hexadecimal digits is looked up. *)
Lemma C9_witness :
  (∃ e : error,
      (∀ fuel w,
         mongoRepository.FindByID repo0 ctx_Background "user-123" fuel w
         = Some ((None, Some (Errorf_w invalid_id_format e)), w))
      ∧ (∀ fuel w,
           auditService.GetByID (auditService.mk repo0) ctx_Background "user-123" fuel w
           = Some ((None, Some (Errorf_w invalid_id_format e)), w))
      ∧ (None, Some (Errorf_w invalid_id_format e))
        ≠ (None : option AuditEntry, None : option error))
  ∧ mongoRepository.FindByID repo0 ctx_Background "65f0c2a4e1b2c3d4e5f6a7bz" 0%nat world0
    = Some ((None, Some (Errorf_w invalid_id_format (hex_InvalidByteError (Ascii.ascii_of_nat 122)))), world0).
Proof.
  split.
  - apply (C9_malformed_id_is_an_error repo0 ctx_Background "user-123").
    + discriminate.
    + intros [Hlen _]. vm_compute in Hlen. discriminate.
  - reflexivity.
Defined.

Lemma round_trip_keeps ctx w :
  documents (snd (round_trip ctx w)) = documents w
  ∧ journal (snd (round_trip ctx w)) = journal w
  ∧ clock (snd (round_trip ctx w)) = clock w.
Proof.
  unfold round_trip. destruct (ctx_Err ctx); [done|]. by destruct (faults w).
Qed.

Lemma matches_singleton (k : string) (v : bsonValue) (d : AuditEntry) :
  matches {[ k := v ]} d = clause_ok d k v.
Proof.
  unfold matches. destruct (clause_ok d k v) eqn:Hc.
  - apply bool_decide_eq_true_2. by apply map_Forall_singleton.
  - apply bool_decide_eq_false_2. rewrite map_Forall_singleton. congruence.
Qed.

Lemma matches_id (oid : ObjectID) (d : AuditEntry) :
  matches {[ "_id" := BObjectID oid ]} d = true → Entry_ID d = oid.
Proof.
  rewrite matches_singleton. unfold clause_ok, entry_field. simpl.
  destruct (ObjectID_IsZero (Entry_ID d)); [discriminate|]. simpl.
  by intros ?%N.eqb_eq.
Qed.

Lemma filter_matches_id_nil (oid : ObjectID) (docs : list AuditEntry) :
  Forall (λ d, Entry_ID d ≠ oid) docs →
  List.filter (matches {[ "_id" := BObjectID oid ]}) docs = [].
Proof.
  induction 1 as [|d docs Hd _ IH]; simpl; [done|].
  destruct (matches _ d) eqn:Hm; [|done].
  apply matches_id in Hm. contradiction.
Qed.

(** C7: for a well-formed identifier that no stored entry carries,
    [FindByID] returns the not-found sentinel (nil entry, nil error)
    whenever the lookup reaches the store; when the lookup itself fails
    (the context is done, or the round trip fails with an error other
    than the driver's no-documents value) it returns a nil entry with
    a non-nil error, which is a different result. *)
Theorem C7_FindByID_not_found_is_not_an_error :
  ∀ (r : mongoRepository.t) (ctx : context_Context) (id : string)
    (fuel : nat) (w : World),
    well_formed_id id →
    Forall (λ d, Entry_ID d ≠ fst (primitive_ObjectIDFromHex id)) (documents w) →
    (fst (round_trip ctx w) = None →
       ∃ w', mongoRepository.FindByID r ctx id fuel w = Some ((None, None), w')
             ∧ documents w' = documents w
             ∧ new_events w w'
               = [EvFindOne {[ "_id" := BObjectID (fst (primitive_ObjectIDFromHex id)) ]}])
    ∧ (∀ e, fst (round_trip ctx w) = Some e → e ≠ mongo_ErrNoDocuments →
         ∃ w', mongoRepository.FindByID r ctx id fuel w
               = Some ((None, Some (Errorf_w find_failed_format e)), w')
               ∧ (None, Some (Errorf_w find_failed_format e))
                 ≠ (None : option AuditEntry, None : option error)).
Proof.
  intros r ctx id fuel w Hwf Habsent.
  apply ObjectIDFromHex_ok in Hwf.
  unfold mongoRepository.FindByID.
  destruct (primitive_ObjectIDFromHex id) as [oid err] eqn:Hparse.
  simpl in Hwf, Habsent. subst err. simpl fst.
  unfold bind, Collection_FindOne.
  destruct (round_trip_keeps ctx w) as (Hdocs & Hj & _).
  destruct (round_trip ctx w) as [f w1] eqn:Hrt. simpl in Hdocs, Hj. simpl fst.
  split.
  - intros ->. rewrite Hdocs, (filter_matches_id_nil oid _ Habsent).
    rewrite bool_decide_eq_true_2 by done.
    eexists. split; [reflexivity|]. simpl. split; [done|].
    apply new_events_app. simpl. by rewrite Hj.
  - intros e -> Hne. rewrite bool_decide_eq_false_2 by done.
    eexists. split; [reflexivity | discriminate].
Qed.

(** On a store holding one entry, looking up another identifier gives
    the sentinel; with the connection down it gives an error. *)
Lemma C7_witness :
  let w := mkWorld [set_ID 7%N login_entry] [] 1000 8%N [] in
  let id := "0000000000000000000000ff" in
  ∃ w', mongoRepository.FindByID repo0 ctx_Background id 0%nat w = Some ((None, None), w')
        ∧ documents w' = documents w
        ∧ new_events w w'
          = [EvFindOne {[ "_id" := BObjectID (fst (primitive_ObjectIDFromHex id)) ]}].
Proof.
  intros w id.
  destruct (C7_FindByID_not_found_is_not_an_error repo0 ctx_Background id 0%nat w)
    as [Hfound _].
  - split; [reflexivity|]. vm_compute. repeat constructor.
  - constructor; [|constructor]. vm_compute. discriminate.
  - apply Hfound. reflexivity.
Defined.

Example FindByID_absent :
  fst <$> mongoRepository.FindByID repo0 ctx_Background "0000000000000000000000ff" 0%nat
            (mkWorld [set_ID 7%N login_entry] [] 1000 8%N [])
  = Some (None, None).
Proof. reflexivity. Qed.

Example FindByID_present :
  fst <$> mongoRepository.FindByID repo0 ctx_Background "000000000000000000000007" 0%nat
            (mkWorld [set_ID 7%N login_entry] [] 1000 8%N [])
  = Some (Some (set_ID 7%N login_entry), None).
Proof. reflexivity. Qed.

Example FindByID_lookup_failed :
  fst <$> mongoRepository.FindByID repo0 ctx_Background "0000000000000000000000ff" 0%nat
            (mkWorld [set_ID 7%N login_entry] [Some connection_reset] 1000 8%N [])
  = Some (None, Some (Errorf_w find_failed_format connection_reset)).
Proof. reflexivity. Qed.

(* ================================================================== *)
(** ** Filter construction *)

Lemma lookup_if_insert (c : bool) (k k' : string) (v : bsonValue) (m : bson_M) :
  (if c then <[k := v]> m else m) !! k'
  = if c && bool_decide (k = k') then Some v else m !! k'.
Proof.
  destruct c; simpl; [|done]. rewrite lookup_insert.
  by repeat case_decide; case_bool_decide.
Qed.

Lemma lookup_match_insert {A} (o : option A) (k k' : string) (f : A → bsonValue)
    (m : bson_M) :
  (match o with Some x => <[k := f x]> m | None => m end) !! k'
  = match o with
    | Some x => if bool_decide (k = k') then Some (f x) else m !! k'
    | None => m !! k'
    end.
Proof.
  destruct o; [|done]. rewrite lookup_insert.
  by repeat case_decide; case_bool_decide.
Qed.

(** Reading a key of the filter [buildFilter] makes. *)
Ltac read_filter :=
  unfold mongoRepository.buildFilter, nonempty;
  repeat match goal with
         | |- context [(if ?c then <[?k := ?v]> ?m else ?m) !! ?k'] =>
             rewrite (lookup_if_insert c k k' v m)
         | |- context [(match ?o with Some x => <[?k := @?f x]> ?m | None => ?m end) !! ?k'] =>
             rewrite (lookup_match_insert o k k' f m)
         end.

Ltac eval_keys :=
  repeat match goal with
         | |- context [bool_decide (?a = ?b)] =>
             first [ rewrite (bool_decide_eq_true_2 (a = b)) by reflexivity
                   | rewrite (bool_decide_eq_false_2 (a = b)) by done ]
         end;
  rewrite ?andb_false_r, ?andb_true_r, ?lookup_empty; cbv beta iota.

Lemma buildFilter_actor_id q :
  mongoRepository.buildFilter q !! "actor.id" = BString <$> nonempty (Query_ActorID q).
Proof.
  read_filter. eval_keys.
  destruct (Query_Success q); cbv beta iota; by destruct (String.eqb _ _).
Qed.

Lemma buildFilter_actor_type q :
  mongoRepository.buildFilter q !! "actor.type" = BString <$> nonempty (Query_ActorType q).
Proof.
  read_filter. eval_keys.
  destruct (Query_Success q); cbv beta iota; by destruct (String.eqb _ _).
Qed.

Lemma buildFilter_session_id q :
  mongoRepository.buildFilter q !! "actor.session_id"
  = BString <$> nonempty (Query_SessionID q).
Proof.
  read_filter. eval_keys.
  destruct (Query_Success q); cbv beta iota; by destruct (String.eqb _ _).
Qed.

Lemma buildFilter_action q :
  mongoRepository.buildFilter q !! "action"
  = match Query_Actions q with
    | [] => None
    | _ :: _ => Some (BDocument {[ "$in" := BArray (BString <$> Query_Actions q) ]})
    end.
Proof.
  read_filter. eval_keys.
  destruct (Query_Success q); cbv beta iota; by destruct (Query_Actions q).
Qed.

Lemma buildFilter_resource_type q :
  mongoRepository.buildFilter q !! "resource.type"
  = BString <$> nonempty (Query_ResourceType q).
Proof.
  read_filter. eval_keys.
  destruct (Query_Success q); cbv beta iota; by destruct (String.eqb _ _).
Qed.

Lemma buildFilter_resource_id q :
  mongoRepository.buildFilter q !! "resource.id"
  = BString <$> nonempty (Query_ResourceID q).
Proof.
  read_filter. eval_keys.
  destruct (Query_Success q); cbv beta iota; by destruct (String.eqb _ _).
Qed.

Lemma buildFilter_success q :
  mongoRepository.buildFilter q !! "success" = BBool <$> Query_Success q.
Proof. read_filter. eval_keys. by destruct (Query_Success q). Qed.

Lemma buildFilter_timestamp q :
  match mongoRepository.buildFilter q !! "timestamp" with
  | None => Query_StartTime q = None ∧ Query_EndTime q = None
  | Some (BDocument range) =>
      (Query_StartTime q ≠ None ∨ Query_EndTime q ≠ None)
      ∧ range !! "$gte" = BDateTime <$> Query_StartTime q
      ∧ range !! "$lte" = BDateTime <$> Query_EndTime q
      ∧ ∀ op, op ≠ "$gte" → op ≠ "$lte" → range !! op = None
  | Some _ => False
  end.
Proof.
  read_filter. eval_keys.
  destruct (Query_StartTime q) as [s|], (Query_EndTime q) as [e|]; simpl.
  - split; [by left|]. split; [done|]. split; [done|].
    intros op H1 H2. by rewrite !lookup_insert_ne.
  - split; [by left|]. split; [done|]. split; [done|].
    intros op H1 H2. by rewrite !lookup_insert_ne.
  - split; [by right|]. split; [done|]. split; [done|].
    intros op H1 H2. by rewrite !lookup_insert_ne.
  - by destruct (Query_Success q).
Qed.

Lemma buildFilter_other q k :
  k ∉ filter_keys → mongoRepository.buildFilter q !! k = None.
Proof.
  intros Hk. unfold filter_keys in Hk. rewrite !not_elem_of_cons in Hk.
  destruct Hk as (?&?&?&?&?&?&?&?&_).
  read_filter. eval_keys. by destruct (Query_Success q).
Qed.

(** *** What the filter means for an entry *)

Lemma matches_spec (flt : bson_M) (e : AuditEntry) :
  matches flt e = true ↔ ∀ k v, flt !! k = Some v → clause_ok e k v = true.
Proof. unfold matches. rewrite bool_decide_eq_true. reflexivity. Qed.

Lemma nonempty_Some s x : nonempty s = Some x ↔ s ≠ EmptyString ∧ x = s.
Proof.
  unfold nonempty. destruct (String.eqb_spec s EmptyString); split.
  - discriminate. - intros [? _]; contradiction.
  - intros [= <-]; done. - intros [_ ->]; done.
Qed.

Lemma nonempty_None s : nonempty s = None ↔ s = EmptyString.
Proof.
  unfold nonempty. destruct (String.eqb_spec s EmptyString); split; done.
Qed.

(** An equality clause on a string field that is always stored. *)
Lemma clause_string_eq e path (x s : string) :
  entry_field e path = Some (BString x) →
  clause_ok e path (BString s) = true ↔ x = s.
Proof. unfold clause_ok. intros ->. simpl. apply String.eqb_eq. Qed.

Lemma clause_session_eq e (s : string) :
  s ≠ EmptyString →
  clause_ok e "actor.session_id" (BString s) = true ↔ Actor_SessionID (Entry_Actor e) = s.
Proof.
  intros Hs. unfold clause_ok, entry_field, omit_empty. simpl.
  destruct (String.eqb_spec (Actor_SessionID (Entry_Actor e)) EmptyString) as [He|He].
  - split; [discriminate | congruence].
  - simpl. apply String.eqb_eq.
Qed.

Lemma clause_success_eq e (b : bool) :
  clause_ok e "success" (BBool b) = true ↔ Entry_Success e = b.
Proof. unfold clause_ok, entry_field. simpl. by destruct (Entry_Success e), b. Qed.

Lemma clause_action_in e (actions : list AuditAction) :
  clause_ok e "action" (BDocument {[ "$in" := BArray (BString <$> actions) ]}) = true
  ↔ Entry_Action e ∈ actions.
Proof.
  unfold clause_ok. rewrite bool_decide_eq_true, map_Forall_singleton.
  unfold entry_field, operator_ok. simpl.
  rewrite existsb_exists. split.
  - intros (v & Hin & Heq). apply list_elem_of_In, list_elem_of_fmap in Hin as (a & -> & Ha).
    simpl in Heq. apply String.eqb_eq in Heq. by subst.
  - intros Hin. exists (BString (Entry_Action e)). split.
    + apply list_elem_of_In, list_elem_of_fmap. eauto.
    + simpl. apply String.eqb_refl.
Qed.
Lemma clause_time_range e (range : bson_M) (s t : option Time) :
  range !! "$gte" = BDateTime <$> s →
  range !! "$lte" = BDateTime <$> t →
  (∀ op, op ≠ "$gte" → op ≠ "$lte" → range !! op = None) →
  clause_ok e "timestamp" (BDocument range) = true
  ↔ (∀ x, s = Some x → x ≤ Entry_Timestamp e) ∧ (∀ x, t = Some x → Entry_Timestamp e ≤ x).
Proof.
  intros Hg Hl Ho. unfold clause_ok. rewrite bool_decide_eq_true.
  unfold map_Forall. split.
  - intros H. split; intros x ->.
    + specialize (H _ _ Hg). unfold entry_field, operator_ok in H. simpl in H. lia.
    + specialize (H _ _ Hl). unfold entry_field, operator_ok in H. simpl in H. lia.
  - intros [Hs Ht] op arg Hop.
    destruct (decide (op = "$gte")) as [->|Hn1].
    { rewrite Hg in Hop. destruct s as [x|]; [|done]. injection Hop as <-.
      unfold entry_field, operator_ok. simpl. specialize (Hs x eq_refl). lia. }
    destruct (decide (op = "$lte")) as [->|Hn2].
    { rewrite Hl in Hop. destruct t as [x|]; [|done]. injection Hop as <-.
      unfold entry_field, operator_ok. simpl. specialize (Ht x eq_refl). lia. }
    rewrite Ho in Hop by done. discriminate.
Qed.

Section FilterMeaning.
Context (q : AuditQuery) (e : AuditEntry).
Local Abbreviation flt := (mongoRepository.buildFilter q).

Lemma string_clause_holds path (s x : string) :
  flt !! path = BString <$> nonempty s →
  (∀ y, y ≠ EmptyString → clause_ok e path (BString y) = true ↔ x = y) →
  (∀ v, flt !! path = Some v → clause_ok e path v = true) ↔ (s = EmptyString ∨ x = s).
Proof.
  intros -> Hc. destruct (nonempty s) as [y|] eqn:Hn; simpl.
  - apply nonempty_Some in Hn as [Hs ->]. split.
    + intros H. right. apply (Hc s Hs). by apply H.
    + intros [?|Hx]; [done|]. intros v [= <-]. by apply (Hc s Hs).
  - apply nonempty_None in Hn. split; [by left | discriminate].
Qed.

Lemma filter_keys_cover (P : string → bsonValue → Prop) :
  (∀ k v, flt !! k = Some v → P k v)
  ↔ Forall (λ k, ∀ v, flt !! k = Some v → P k v) filter_keys.
Proof.
  rewrite Forall_forall. split.
  - intros H k _ v. apply H.
  - intros H k v Hk. destruct (decide (k ∈ filter_keys)) as [Hin|Hout].
    + by apply (H k Hin).
    + rewrite buildFilter_other in Hk by done. discriminate.
Qed.

Lemma buildFilter_matches : matches flt e = true ↔ query_holds q e.
Proof.
  rewrite matches_spec, filter_keys_cover. unfold filter_keys, query_holds.
  rewrite !Forall_cons, Forall_nil.
  rewrite (string_clause_holds "actor.id" (Query_ActorID q) (Actor_ID (Entry_Actor e)));
    [|apply buildFilter_actor_id | intros; by apply clause_string_eq].
  rewrite (string_clause_holds "actor.type" (Query_ActorType q) (Actor_Type (Entry_Actor e)));
    [|apply buildFilter_actor_type | intros; by apply clause_string_eq].
  rewrite (string_clause_holds "actor.session_id" (Query_SessionID q)
             (Actor_SessionID (Entry_Actor e)));
    [|apply buildFilter_session_id | intros; by apply clause_session_eq].
  rewrite (string_clause_holds "resource.type" (Query_ResourceType q)
             (Resource_Type (Entry_Resource e)));
    [|apply buildFilter_resource_type | intros; by apply clause_string_eq].
  rewrite (string_clause_holds "resource.id" (Query_ResourceID q)
             (Resource_ID (Entry_Resource e)));
    [|apply buildFilter_resource_id | intros; by apply clause_string_eq].
  assert (Hact : (∀ v, flt !! "action" = Some v → clause_ok e "action" v = true)
                 ↔ (Query_Actions q = [] ∨ Entry_Action e ∈ Query_Actions q)).
  { rewrite buildFilter_action. destruct (Query_Actions q) as [|a l] eqn:Ha.
    - split; [by left | discriminate].
    - rewrite <- Ha. split.
      + intros H. right. apply clause_action_in. by apply H.
      + intros [Hnil|Hin]; [congruence|]. intros v [= <-]. by apply clause_action_in. }
  assert (Hsucc : (∀ v, flt !! "success" = Some v → clause_ok e "success" v = true)
                  ↔ (∀ b, Query_Success q = Some b → Entry_Success e = b)).
  { rewrite buildFilter_success. destruct (Query_Success q) as [b|]; simpl.
    - split.
      + intros H b' [= <-]. apply clause_success_eq. by apply H.
      + intros H v [= <-]. apply clause_success_eq. by apply H.
    - split; discriminate. }
  assert (Htime : (∀ v, flt !! "timestamp" = Some v → clause_ok e "timestamp" v = true)
                  ↔ ((∀ t, Query_StartTime q = Some t → t ≤ Entry_Timestamp e)
                     ∧ (∀ t, Query_EndTime q = Some t → Entry_Timestamp e ≤ t))).
  { pose proof (buildFilter_timestamp q) as Ht.
    destruct (flt !! "timestamp") as [[| | | | |range]|]; try done.
    - destruct Ht as (_ & Hg & Hl & Ho).
      rewrite <- (clause_time_range e range _ _ Hg Hl Ho). split.
      + intros H. by apply H.
      + intros H v [= <-]. done.
    - destruct Ht as [-> ->]. split; [|discriminate]. intros _. split; discriminate. }
  rewrite Hact, Hsucc, Htime. tauto.
Qed.
End FilterMeaning.

(** C8: the filter built from a query holds exactly the clauses of
    the fields that are present: an equality clause for each of actor
    id, actor type, session id, resource type and resource id that is
    not empty and for the success flag when set; an [$in] clause over
    the listed actions when there are any; a range clause on the
    timestamp with [$gte] the start time when set and [$lte] the end
    time when set; and no other key.  Read as the store reads it, an
    entry matches the filter exactly when every present field of the
    query is equal to the entry's, its action is one of those listed,
    and its timestamp lies within the given bounds, both inclusive. *)
Theorem C8_buildFilter_clauses :
  ∀ q : AuditQuery,
    let flt := mongoRepository.buildFilter q in
    flt !! "actor.id" = BString <$> nonempty (Query_ActorID q)
    ∧ flt !! "actor.type" = BString <$> nonempty (Query_ActorType q)
    ∧ flt !! "actor.session_id" = BString <$> nonempty (Query_SessionID q)
    ∧ flt !! "resource.type" = BString <$> nonempty (Query_ResourceType q)
    ∧ flt !! "resource.id" = BString <$> nonempty (Query_ResourceID q)
    ∧ flt !! "success" = BBool <$> Query_Success q
    ∧ flt !! "action"
      = match Query_Actions q with
        | [] => None
        | _ :: _ => Some (BDocument {[ "$in" := BArray (BString <$> Query_Actions q) ]})
        end
    ∧ match flt !! "timestamp" with
      | None => Query_StartTime q = None ∧ Query_EndTime q = None
      | Some (BDocument range) =>
          (Query_StartTime q ≠ None ∨ Query_EndTime q ≠ None)
          ∧ range !! "$gte" = BDateTime <$> Query_StartTime q
          ∧ range !! "$lte" = BDateTime <$> Query_EndTime q
          ∧ ∀ op, op ≠ "$gte" → op ≠ "$lte" → range !! op = None
      | Some _ => False
      end
    ∧ (∀ k, k ∉ filter_keys → flt !! k = None)
    ∧ ∀ e : AuditEntry, matches flt e = true ↔ query_holds q e.
Proof.
  intros q flt. subst flt.
  split; [apply buildFilter_actor_id|].
  split; [apply buildFilter_actor_type|].
  split; [apply buildFilter_session_id|].
  split; [apply buildFilter_resource_type|].
  split; [apply buildFilter_resource_id|].
  split; [apply buildFilter_success|].
  split; [apply buildFilter_action|].
  split; [apply buildFilter_timestamp|].
  split; [apply buildFilter_other|].
  intros e. apply buildFilter_matches.
Qed.

(* ================================================================== *)
(** ** Actor history *)

(** The options [find_all] passes to the store. *)
Lemma find_all_events ctx (flt : bson_M) limit what fuel w :
  ∃ res w' rest,
    mongoRepository.find_all ctx flt limit what fuel w = Some (res, w')
    ∧ new_events w w'
      = EvFind flt (if 0 <? limit
                    then SetLimit limit (SetSort mongoRepository.by_timestamp_desc options_Find)
                    else SetSort mongoRepository.by_timestamp_desc options_Find)
        :: rest.
Proof.
  unfold mongoRepository.find_all, bind, Collection_Find, Cursor_All, ret.
  set (opts := if 0 <? limit then _ else _).
  destruct (round_trip_keeps ctx w) as (_ & Hj & _).
  destruct (round_trip ctx w) as [f w1]. simpl in Hj.
  destruct f as [err|].
  - eexists _, _, []. split; [reflexivity|]. apply new_events_app. simpl. by rewrite Hj.
  - set (w2 := record _ w1).
    destruct (round_trip_keeps ctx w2) as (_ & Hj2 & _).
    destruct (round_trip ctx w2) as [f2 w3]. simpl in Hj2.
    destruct f2 as [err|]; eexists _, _, [EvCursorAll]; (split; [reflexivity|]);
      apply new_events_app; simpl; rewrite Hj2; subst w2; simpl; rewrite Hj;
      by rewrite <- app_assoc.
Qed.

Lemma FindByActor_filter r ctx actorID actorType limit :
  ∃ flt : bson_M,
    mongoRepository.FindByActor r ctx actorID actorType limit
    = mongoRepository.find_all ctx flt limit actor_history_failed_format
    ∧ flt !! "actor.id" = Some (BString actorID)
    ∧ flt !! "actor.type" = BString <$> nonempty actorType
    ∧ (∀ k, k ≠ "actor.id" → k ≠ "actor.type" → flt !! k = None).
Proof.
  unfold mongoRepository.FindByActor, nonempty.
  destruct (String.eqb actorType EmptyString); simpl; eexists; (split; [reflexivity|]).
  - split; [done|]. split; [done|]. intros k H1 H2. by rewrite lookup_singleton_ne.
  - split; [done|]. split; [done|]. intros k H1 H2.
    rewrite lookup_insert_ne by done. by rewrite lookup_singleton_ne.
Qed.

(** C10: for a non-empty actor id (and a limit that is not negative),
    [GetActorHistory] is the repository's [FindByActor] on the same
    arguments whatever the actor type string is: the type is not
    checked against the enumeration.  The filter the store receives
    always has the equality clause on the actor id; it has no clause on
    the actor type when the type is empty, and the equality clause on
    the type as given otherwise, within the enumeration or not; it has
    no other clause. *)
Theorem C10_GetActorHistory_does_not_validate_actor_type :
  ∀ (r : mongoRepository.t) (ctx : context_Context)
    (actorID : string) (actorType : ActorType) (limit : Z),
    actorID ≠ EmptyString → 0 ≤ limit →
    auditService.GetActorHistory (auditService.mk r) ctx actorID actorType limit
    = mongoRepository.FindByActor r ctx actorID actorType limit
    ∧ ∀ (fuel : nat) (w : World),
        ∃ res w' flt opts rest,
          auditService.GetActorHistory (auditService.mk r) ctx actorID actorType limit fuel w
          = Some (res, w')
          ∧ new_events w w' = EvFind flt opts :: rest
          ∧ flt !! "actor.id" = Some (BString actorID)
          ∧ flt !! "actor.type" = BString <$> nonempty actorType
          ∧ (∀ k, k ≠ "actor.id" → k ≠ "actor.type" → flt !! k = None).
Proof.
  intros r ctx actorID actorType limit Hid Hlimit.
  assert (Hdelegate :
    auditService.GetActorHistory (auditService.mk r) ctx actorID actorType limit
    = mongoRepository.FindByActor r ctx actorID actorType limit).
  { unfold auditService.GetActorHistory.
    apply String_eqb_false_iff in Hid. rewrite Hid.
    by rewrite (proj2 (Z.ltb_ge limit 0)) by lia. }
  split; [exact Hdelegate|].
  intros fuel w. rewrite Hdelegate.
  destruct (FindByActor_filter r ctx actorID actorType limit)
    as (flt & Heq & Hid' & Hty & Hother).
  rewrite Heq.
  destruct (find_all_events ctx flt limit actor_history_failed_format fuel w)
    as (res & w' & rest & Hrun & Hev).
  eexists res, w', flt, _, rest. split; [exact Hrun|]. split; [exact Hev|]. done.
Qed.

(** An actor type outside the enumeration reaches the store as an
    equality clause. *)
Lemma C10_witness :
  auditService.GetActorHistory service0 ctx_Background "u1" "robot" 10
  = mongoRepository.FindByActor repo0 ctx_Background "u1" "robot" 10
  ∧ ∀ (fuel : nat) (w : World),
      ∃ res w' flt opts rest,
        auditService.GetActorHistory service0 ctx_Background "u1" "robot" 10 fuel w
        = Some (res, w')
        ∧ new_events w w' = EvFind flt opts :: rest
        ∧ flt !! "actor.id" = Some (BString "u1")
        ∧ flt !! "actor.type" = BString <$> nonempty "robot"
        ∧ (∀ k, k ≠ "actor.id" → k ≠ "actor.type" → flt !! k = None).
Proof.
  apply (C10_GetActorHistory_does_not_validate_actor_type repo0 ctx_Background
           "u1" "robot" 10).
  - discriminate.
  - lia.
Defined.

Example GetHistory_rejects_unknown_actor_type :
  fst <$> auditService.GetHistory service0 ctx_Background
            (mkAuditQuery "u1" "robot" EmptyString [] EmptyString EmptyString
                          None None None 10 0) 0%nat world0
  = Some (None, Some (Errorf_w "invalid query: %w"
                        (Errorf_s "invalid actor type: %s" "robot"))).
Proof. reflexivity. Qed.

Example GetActorHistory_accepts_unknown_actor_type :
  let robot := set_ID 8%N (set_Actor (mkActor "u1" "robot" "R2" EmptyString) login_entry) in
  let w := mkWorld [set_ID 7%N login_entry; robot] [] 1000 9%N [] in
  fst <$> auditService.GetActorHistory service0 ctx_Background "u1" "robot" 10 0%nat w
  = Some ([robot], None)
  ∧ fst <$> auditService.GetActorHistory service0 ctx_Background "u1" EmptyString 10 0%nat w
    = Some ([set_ID 7%N login_entry; robot], None).
Proof. split; reflexivity. Qed.

(* ================================================================== *)
(** ** Paged queries *)

Lemma insert_newest_perm e l : insert_newest e l ≡ₚ e :: l.
Proof.
  induction l as [|x xs IH]; simpl; [done|].
  destruct (Entry_Timestamp x <=? Entry_Timestamp e); [done|].
  rewrite IH. apply Permutation_swap.
Qed.

Lemma newest_first_perm l : newest_first l ≡ₚ l.
Proof.
  induction l as [|x xs IH]; simpl; [done|].
  by rewrite insert_newest_perm, IH.
Qed.

Lemma insert_newest_sorted e l :
  StronglySorted not_older l → StronglySorted not_older (insert_newest e l).
Proof.
  induction 1 as [|x xs Hs IH Hx]; simpl.
  - repeat constructor.
  - destruct (Z.leb_spec (Entry_Timestamp x) (Entry_Timestamp e)) as [Hle|Hgt].
    + constructor; [by constructor|].
      constructor; [done|].
      eapply Forall_impl; [exact Hx|]. unfold not_older. intros y Hy. simpl in Hy. lia.
    + constructor; [done|].
      rewrite insert_newest_perm. constructor; [|done]. unfold not_older. lia.
Qed.

Lemma newest_first_sorted l : StronglySorted not_older (newest_first l).
Proof.
  induction l as [|x xs IH]; simpl; [constructor | by apply insert_newest_sorted].
Qed.

Lemma newest_first_length l : length (newest_first l) = length l.
Proof. apply Permutation_length, newest_first_perm. Qed.

(** A round trip on a live context with a calm script reaches the
    store and leaves the rest of the script calm. *)
Lemma round_trip_calm k w :
  calm (S k) w →
  ∃ w1, round_trip ctx_Background w = (None, w1)
        ∧ documents w1 = documents w ∧ journal w1 = journal w ∧ calm k w1.
Proof.
  unfold calm, round_trip. simpl. destruct (faults w) as [|f rest] eqn:Hf.
  - intros _. exists w. rewrite Hf. repeat split; try done. by rewrite take_nil.
  - simpl. intros [<- Hrest]%Forall_cons. eexists. split; [reflexivity|].
    simpl. done.
Qed.


(** The page the store selects under the options [FindByQuery] sets. *)
Lemma FindByQuery_page (limit offset : Z) (l : list AuditEntry) :
  let opts := SetSort mongoRepository.by_timestamp_desc options_Find in
  let opts := if 0 <? limit then SetLimit limit opts else opts in
  let opts := if 0 <? offset then SetSkip offset opts else opts in
  page opts (sort_documents (Opt_Sort opts) l)
  = let from := drop (Z.to_nat offset) (newest_first l) in
    if 0 <? limit then take (Z.to_nat limit) from else from.
Proof.
  unfold page. destruct (Z.ltb_spec 0 limit) as [Hl|Hl], (Z.ltb_spec 0 offset) as [Ho|Ho];
    simpl.
  - rewrite (proj2 (Z.eqb_neq limit 0)) by lia. by rewrite Z.abs_eq by lia.
  - rewrite (proj2 (Z.eqb_neq limit 0)) by lia. rewrite Z.abs_eq by lia.
    by replace (Z.to_nat offset) with 0%nat by lia.
  - done.
  - by replace (Z.to_nat offset) with 0%nat by lia.
Qed.

(** The sum [Offset + len(entries)] of [FindByQuery] does not wrap. *)
Lemma offset_plus_returned_is_int (offset : Z) (n returned total : nat) :
  is_int offset → Z.of_nat total ≤ max_int →
  (n ≤ total)%nat → (returned ≤ n - Z.to_nat offset)%nat →
  is_int (offset + Z.of_nat returned).
Proof.
  unfold is_int, min_int, max_int, int_bits.
  change (2 ^ (64 - 1)) with 9223372036854775808. lia.
Qed.

Lemma filter_length_bound {A} (f : A → bool) (l : list A) :
  (length (List.filter f l) ≤ length l)%nat.
Proof.
  induction l as [|x l IH]; simpl; [done|]. destruct (f x); simpl; lia.
Qed.

Lemma elem_of_filter_matches (f : AuditEntry → bool) (l : list AuditEntry) (e : AuditEntry) :
  e ∈ List.filter f l ↔ e ∈ l ∧ f e = true.
Proof. rewrite !list_elem_of_In. apply filter_In. Qed.

(** C4, as stated, fails: with [Limit = 0] and [Offset = 1] on a store
    holding two matching entries, [FindByQuery] skips the newest one
    and returns one entry, not every match, in whatever order. *)
Lemma C4_Limit_zero_counterexample :
  ¬ (∀ (r : mongoRepository.t) (q : AuditQuery) (fuel : nat) (w : World)
       (res : AuditQueryResult) (w' : World),
       Query_Limit q = 0 →
       mongoRepository.FindByQuery r ctx_Background q fuel w = Some ((Some res, None), w') →
       Result_Entries res
       ≡ₚ List.filter (matches (mongoRepository.buildFilter q)) (documents w)).
Proof.
  intros Hclaim.
  pose proof (Hclaim repo0 (query_u1 0 1) 0%nat two_logins) as H.
  destruct (mongoRepository.FindByQuery _ _ _ _ _) as [[[[res|] [err|]] w']|] eqn:Hrun;
    try (vm_compute in Hrun; discriminate).
  specialize (H res w' eq_refl eq_refl). apply Permutation_length in H.
  vm_compute in Hrun. injection Hrun as <- _.
  vm_compute in H. discriminate H.
Qed.

(** C4 (amended): when the three round trips of [FindByQuery] reach the
    store, [Total] is the number of stored entries that match the
    filter, pagination ignored, and these are the entries the query
    asks for; the entries returned are taken from the newest-first
    ordering of the matches (a permutation of them, sorted by
    timestamp descending), starting at position [Offset] (position 0
    when [Offset] is not positive): all of them from there on when
    [Limit] is not positive, the first [Limit] of them when it is; so
    with [Limit = 0] every match is returned only if [Offset] is 0 too,
    and with [Limit = L > 0] and [Offset = O ≥ 0] the entries are
    exactly those at positions [O, O+L).  [HasMore] is true exactly
    when [Limit > 0] and [Offset + returned < Total]. *)
Theorem C4_FindByQuery_page_of_newest_first :
  ∀ (r : mongoRepository.t) (q : AuditQuery) (fuel : nat) (w : World),
    is_int (Query_Offset q) →
    Z.of_nat (length (documents w)) ≤ max_int →
    calm 3 w →
    let found := List.filter (matches (mongoRepository.buildFilter q)) (documents w) in
    let from := drop (Z.to_nat (Query_Offset q)) (newest_first found) in
    let entries :=
      if 0 <? Query_Limit q then take (Z.to_nat (Query_Limit q)) from else from in
    let total := Z.of_nat (length found) in
    let hasMore :=
      bool_decide (0 < Query_Limit q
                   ∧ Query_Offset q + Z.of_nat (length entries) < total) in
    (∃ w', mongoRepository.FindByQuery r ctx_Background q fuel w
           = Some ((Some (mkAuditQueryResult entries total hasMore), None), w')
           ∧ documents w' = documents w)
    ∧ (∀ e, e ∈ found ↔ e ∈ documents w ∧ query_holds q e)
    ∧ newest_first found ≡ₚ found
    ∧ StronglySorted not_older (newest_first found).
Proof.
  intros r q fuel w Hoff Hsize Hcalm found from entries total hasMore.
  split; [|split; [|split]].
  - unfold mongoRepository.FindByQuery.
    destruct (round_trip_calm 2 w Hcalm) as (w1 & Hrt1 & Hd1 & Hj1 & Hc1).
    unfold bind at 1. unfold Collection_CountDocuments. rewrite Hrt1. cbv beta iota.
    set (w2 := record _ w1).
    destruct (round_trip_calm 1 w2 Hc1) as (w3 & Hrt3 & Hd3 & Hj3 & Hc3).
    unfold bind at 1. unfold Collection_Find. rewrite Hrt3. cbv beta iota.
    set (w4 := record _ w3).
    destruct (round_trip_calm 0 w4 Hc3) as (w5 & Hrt5 & Hd5 & Hj5 & _).
    unfold bind at 1. unfold Cursor_All. rewrite Hrt5. cbv beta iota.
    rewrite Hd3. subst w2. simpl documents. rewrite Hd1.
    fold found. rewrite (FindByQuery_page (Query_Limit q) (Query_Offset q) found).
    cbv zeta. fold from. fold entries. fold total.
    assert (is_int (Query_Offset q + Z.of_nat (length entries))) as Hint.
    { apply (offset_plus_returned_is_int _ (length found) _ (length (documents w)));
        [done | done | apply filter_length_bound |].
      subst entries from. destruct (0 <? Query_Limit q);
        rewrite ?length_take, length_drop, newest_first_length; lia. }
    rewrite wrap_int_id by done.
    eexists. split.
    + unfold ret. do 5 f_equal. subst hasMore. clear Hint. clearbody entries total.
      destruct (Z.ltb_spec 0 (Query_Limit q)) as [Hl|Hl],
               (Z.ltb_spec (Query_Offset q + Z.of_nat (length entries)) total) as [Ht|Ht];
        simpl; symmetry;
        first [apply bool_decide_eq_true_2; lia | apply bool_decide_eq_false_2; lia].
    + simpl. rewrite Hd5. subst w4. simpl. rewrite Hd3. simpl. done.
  - intros e. subst found. rewrite elem_of_filter_matches, buildFilter_matches. done.
  - apply newest_first_perm.
  - apply newest_first_sorted.
Qed.

(** The second page of size one over two logins. *)
Lemma C4_witness :
  let q := query_u1 1 1 in
  let w := two_logins in
  let found := List.filter (matches (mongoRepository.buildFilter q)) (documents w) in
  let from := drop (Z.to_nat (Query_Offset q)) (newest_first found) in
  let entries :=
    if 0 <? Query_Limit q then take (Z.to_nat (Query_Limit q)) from else from in
  let total := Z.of_nat (length found) in
  let hasMore :=
    bool_decide (0 < Query_Limit q
                 ∧ Query_Offset q + Z.of_nat (length entries) < total) in
  (∃ w', mongoRepository.FindByQuery repo0 ctx_Background q 0%nat w
         = Some ((Some (mkAuditQueryResult entries total hasMore), None), w')
         ∧ documents w' = documents w)
  ∧ (∀ e, e ∈ found ↔ e ∈ documents w ∧ query_holds q e)
  ∧ newest_first found ≡ₚ found
  ∧ StronglySorted not_older (newest_first found).
Proof.
  apply (C4_FindByQuery_page_of_newest_first repo0 (query_u1 1 1) 0%nat two_logins).
  - split; by vm_compute.
  - by vm_compute.
  - apply Forall_nil_2.
Defined.

Example FindByQuery_first_page :
  fst <$> mongoRepository.FindByQuery repo0 ctx_Background (query_u1 1 0) 0%nat two_logins
  = Some (Some (mkAuditQueryResult [second_login] 2 true), None).
Proof. reflexivity. Qed.

Example FindByQuery_second_page :
  fst <$> mongoRepository.FindByQuery repo0 ctx_Background (query_u1 1 1) 0%nat two_logins
  = Some (Some (mkAuditQueryResult [first_login] 2 false), None).
Proof. reflexivity. Qed.

Example FindByQuery_no_pagination :
  fst <$> mongoRepository.FindByQuery repo0 ctx_Background (query_u1 0 0) 0%nat two_logins
  = Some (Some (mkAuditQueryResult [second_login; first_login] 2 false), None).
Proof. reflexivity. Qed.

Example FindByQuery_offset_without_limit :
  fst <$> mongoRepository.FindByQuery repo0 ctx_Background (query_u1 0 1) 0%nat two_logins
  = Some (Some (mkAuditQueryResult [first_login] 2 false), None).
Proof. reflexivity. Qed.

(* ================================================================== *)
(** * Further properties of the package *)

(** ** Configuration and construction *)

(** X1: [Validate] accepts a configuration exactly when the URI, the
    database name and the collection name are not empty, the retry
    count and the retry delay are not negative and the batch size is
    positive; a rejection is an [ErrInvalidConfig]. *)
Theorem X1_Config_Validate_accepts_iff :
  ∀ c : Config,
    (Config_Validate c = None
     ↔ MongoURI c ≠ EmptyString ∧ DatabaseName c ≠ EmptyString
       ∧ CollectionName c ≠ EmptyString
       ∧ 0 ≤ MaxRetries c ∧ 0 ≤ RetryDelay c ∧ 0 < BatchSize c)
    ∧ (∀ err, Config_Validate c = Some err → ∃ field message, err = ErrInvalidConfig field message).
Proof.
  intros c. unfold Config_Validate.
  destruct (String.eqb_spec (MongoURI c) EmptyString);
    [split; [split; [discriminate | tauto] | intros ? [= <-]; eauto]|].
  destruct (String.eqb_spec (DatabaseName c) EmptyString);
    [split; [split; [discriminate | tauto] | intros ? [= <-]; eauto]|].
  destruct (String.eqb_spec (CollectionName c) EmptyString);
    [split; [split; [discriminate | tauto] | intros ? [= <-]; eauto]|].
  destruct (Z.ltb_spec (MaxRetries c) 0);
    [split; [split; [discriminate | lia] | intros ? [= <-]; eauto]|].
  destruct (Z.ltb_spec (RetryDelay c) 0);
    [split; [split; [discriminate | lia] | intros ? [= <-]; eauto]|].
  destruct (Z.leb_spec (BatchSize c) 0);
    [split; [split; [discriminate | lia] | intros ? [= <-]; eauto]|].
  split; [|discriminate]. split; [intros _; repeat split; (done || lia) | done].
Qed.

(** One of the two results of [NewMongoRepository] is nil and the other
    is not; a repository that is returned keeps the configuration it
    was given, which is a valid one; the stored documents are left as
    they were; the only collection call made is the creation of the
    seven indexes, and it is made only when [EnableIndexes] is set. *)
Lemma NewMongoRepository_outcome (c : Config) (fuel : nat) (w : World) :
  ∃ res w',
    NewMongoRepository c fuel w = Some (res, w')
    ∧ documents w' = documents w
    ∧ match res with
      | (Some r, None) =>
          mongoRepository.config r = c ∧ Config_Validate c = None
          ∧ 0 < ConnectTimeout c
          ∧ new_events w w'
            = (if EnableIndexes c then [EvCreateIndexes mongoRepository.indexes] else [])
      | (None, Some _) =>
          new_events w w' = []
          ∨ (EnableIndexes c = true
             ∧ new_events w w' = [EvCreateIndexes mongoRepository.indexes])
      | _ => False
      end.
Proof.
  unfold NewMongoRepository.
  destruct (Config_Validate c) as [err|] eqn:Hv.
  { eexists _, _. split; [reflexivity|]. split; [done|]. left.
    apply new_events_app. by rewrite app_nil_r. }
  unfold bind at 1. unfold mongo_Connect.
  destruct (round_trip_keeps ctx_Background w) as (Hd1 & Hj1 & _).
  destruct (round_trip ctx_Background w) as [f1 w1]. simpl in Hd1, Hj1.
  destruct f1 as [e1|].
  { eexists _, _. split; [reflexivity|]. split; [done|]. left.
    apply new_events_app. by rewrite app_nil_r. }
  unfold bind at 1. unfold Client_Ping.
  destruct (round_trip_keeps (context_WithTimeout (ConnectTimeout c)) w1) as (Hd2 & Hj2 & _).
  destruct (round_trip (context_WithTimeout (ConnectTimeout c)) w1) as [f2 w2] eqn:Hrt2.
  simpl in Hd2, Hj2.
  destruct f2 as [e2|].
  { eexists _, _. split; [reflexivity|]. split; [congruence|]. left.
    apply new_events_app. rewrite app_nil_r. congruence. }
  assert (0 < ConnectTimeout c) as Hto.
  { unfold context_WithTimeout, round_trip in Hrt2.
    destruct (Z.leb_spec (ConnectTimeout c) 0); [discriminate | done]. }
  destruct (EnableIndexes c) eqn:Hen.
  - unfold bind at 1. unfold mongoRepository.EnsureIndexes, bind, Collection_CreateIndexes.
    destruct (round_trip_keeps ctx_Background w2) as (Hd3 & Hj3 & _).
    destruct (round_trip ctx_Background w2) as [f3 w3]. simpl in Hd3, Hj3.
    destruct f3 as [e3|]; eexists _, _; (split; [reflexivity|]); simpl;
      (split; [congruence|]).
    + right. split; [done|]. apply new_events_app. simpl. congruence.
    + repeat split; try done. apply new_events_app. simpl. congruence.
  - eexists _, _. split; [reflexivity|]. split; [congruence|].
    repeat split; try done. apply new_events_app. rewrite app_nil_r. congruence.
Qed.


Lemma errors_Is_refl (e : error) : errors_Is e e = true.
Proof. destruct e; cbn [errors_Is]; by rewrite bool_decide_eq_true_2. Qed.

Lemma errors_Is_wrap (format : string) (e target : error) :
  errors_Is e target = true → errors_Is (Errorf_w format e) target = true.
Proof. intros H. cbn [errors_Is]. rewrite H. apply orb_true_r. Qed.

(** X3: a configuration whose connect timeout is zero or negative
    passes [Validate] all the same, yet no repository can be made from
    it: once the connection is made, the ping runs under a context
    whose deadline has already passed and fails with
    [context.DeadlineExceeded]. *)
Theorem X3_NewMongoRepository_needs_positive_timeout :
  ∀ (c : Config) (fuel : nat) (w : World),
    Config_Validate c = None → ConnectTimeout c ≤ 0 →
    fst (round_trip ctx_Background w) = None →
    ∃ w',
      NewMongoRepository c fuel w
      = Some ((None, Some (Errorf_w "failed to ping MongoDB: %w" context_DeadlineExceeded)), w')
      ∧ new_events w w' = [].
Proof.
  intros c fuel w Hv Hto Hconn. unfold NewMongoRepository. rewrite Hv.
  unfold bind at 1. unfold mongo_Connect.
  destruct (round_trip_keeps ctx_Background w) as (_ & Hj1 & _).
  destruct (round_trip ctx_Background w) as [f1 w1]. simpl in Hconn, Hj1. subst f1.
  unfold bind at 1. unfold Client_Ping, context_WithTimeout.
  rewrite (proj2 (Z.leb_le _ _) Hto). simpl.
  eexists. split; [reflexivity|]. apply new_events_app. rewrite app_nil_r. done.
Qed.

Lemma X3_witness :
  ∃ w',
    NewMongoRepository (mkConfig "mongodb://localhost:27017" "audit" "audit_logs"
                                 100 5 0 3 time_Second 1000 true) 0%nat world0
    = Some ((None, Some (Errorf_w "failed to ping MongoDB: %w" context_DeadlineExceeded)), w')
    ∧ new_events world0 w' = [].
Proof.
  apply (X3_NewMongoRepository_needs_positive_timeout
           (mkConfig "mongodb://localhost:27017" "audit" "audit_logs"
                     100 5 0 3 time_Second 1000 true) 0%nat world0).
  - reflexivity.
  - simpl. lia.
  - reflexivity.
Defined.

(** ** The default service *)

Lemma NewService_outcome (c : Config) (fuel : nat) (w : World) :
  ∃ res w',
    NewService c fuel w = Some (res, w')
    ∧ match res with
      | (Some s, None) => s = auditService.mk (mongoRepository.mk c)
      | (None, Some _) => True
      | _ => False
      end
    ∧ ∀ e, Config_Validate c = Some e →
           w' = w ∧ ∃ err, snd res = Some err ∧ errors_Is err e = true.
Proof.
  unfold NewService, bind.
  destruct (NewMongoRepository_outcome c fuel w) as (res & w' & Hrun & _ & Hres).
  assert (Hinv : ∀ e, Config_Validate c = Some e →
                      NewMongoRepository c fuel w
                      = Some ((None, Some (Errorf_w "invalid config: %w" e)), w)).
  { intros e He. unfold NewMongoRepository. by rewrite He. }
  rewrite Hrun. destruct res as [[r|] [e|]]; try done.
  - destruct Hres as (Hc & Hv & _). eexists _, _. split; [reflexivity|]. simpl.
    split; [destruct r; simpl in Hc; by subst|]. intros e He. congruence.
  - eexists _, _. split; [reflexivity|]. split; [done|].
    intros e0 He0. rewrite (Hinv e0 He0) in Hrun. injection Hrun as <- <-.
    split; [done|]. eexists. split; [reflexivity|].
    apply errors_Is_wrap, errors_Is_wrap, errors_Is_refl.
Qed.

Lemma Initialize_invalid_config c g fuel w e :
  Config_Validate c = Some e →
  audit.Initialize c g fuel w
  = Some ((g, Some (Errorf_w "failed to initialize audit module: %w"
                      (Errorf_w "failed to create repository: %w"
                         (Errorf_w "invalid config: %w" e)))), w).
Proof.
  intros He. unfold audit.Initialize, NewService, NewMongoRepository, bind.
  by rewrite He.
Qed.

(** X4: [Initialize] replaces the default service only when it
    succeeds, and then by a service over a repository with the given
    configuration; when it fails the default service is what it was.
    With a configuration that [Validate] rejects it fails before
    anything is asked of the store, and its error wraps the validation
    error. *)
Theorem X4_Initialize_sets_default_only_on_success :
  ∀ (c : Config) (defaultService : option (auditService.t mongoRepository.t))
    (fuel : nat) (w : World),
    ∃ defaultService' err w',
      audit.Initialize c defaultService fuel w = Some ((defaultService', err), w')
      ∧ (err ≠ None → defaultService' = defaultService)
      ∧ (err = None → defaultService' = Some (auditService.mk (mongoRepository.mk c)))
      ∧ (∀ e, Config_Validate c = Some e →
              w' = w ∧ ∃ err', err = Some err' ∧ errors_Is err' e = true).
Proof.
  intros c g fuel w. unfold audit.Initialize, bind.
  destruct (NewService_outcome c fuel w) as (res & w' & Hrun & Hres & Hinv).
  rewrite Hrun. destruct res as [[s|] [e|]]; try done.
  - subst s. eexists _, _, _. split; [reflexivity|].
    split; [done|]. split; [done|]. intros e He.
    destruct (Hinv e He) as (_ & err & Herr & _). discriminate.
  - eexists _, _, _. split; [reflexivity|].
    split; [done|]. split; [discriminate|]. intros e0 He0.
    destruct (Hinv e0 He0) as (-> & err & [= <-] & His). split; [done|].
    eexists. split; [reflexivity|]. by apply errors_Is_wrap.
Qed.

(** X5: [InitializeWithDefaults] with an empty URI or an empty database
    name fails at validation: nothing is asked of the store, the
    default service stays as it was, and the error names the field. *)
Theorem X5_InitializeWithDefaults_rejects_empty_names :
  ∀ (mongoURI databaseName : string)
    (defaultService : option (auditService.t mongoRepository.t))
    (fuel : nat) (w : World),
    mongoURI = EmptyString ∨ databaseName = EmptyString →
    ∃ field err,
      audit.InitializeWithDefaults mongoURI databaseName defaultService fuel w
      = Some ((defaultService, Some err), w)
      ∧ errors_Is err (ErrInvalidConfig field "cannot be empty") = true
      ∧ (field = "MongoURI" ∧ mongoURI = EmptyString
         ∨ field = "DatabaseName" ∧ mongoURI ≠ EmptyString ∧ databaseName = EmptyString).
Proof.
  intros u d g fuel w Hempty.
  assert (∃ field,
            Config_Validate (audit.with_uri_and_database u d DefaultConfig)
            = Some (ErrInvalidConfig field "cannot be empty")
            ∧ (field = "MongoURI" ∧ u = EmptyString
               ∨ field = "DatabaseName" ∧ u ≠ EmptyString ∧ d = EmptyString))
    as (field & Hv & Hfield).
  { unfold Config_Validate. simpl.
    destruct (String.eqb_spec u EmptyString) as [Hu|Hu]; [eexists; split; eauto|].
    destruct (String.eqb_spec d EmptyString) as [Hd|Hd]; [eexists; split; eauto|].
    destruct Hempty; contradiction. }
  exists field. eexists. split; [by apply Initialize_invalid_config|].
  split; [|done]. apply errors_Is_wrap, errors_Is_wrap, errors_Is_wrap, errors_Is_refl.
Qed.

Lemma X5_witness :
  ∃ field err,
    audit.InitializeWithDefaults "mongodb://localhost:27017" EmptyString None 0%nat world0
    = Some ((None, Some err), world0)
    ∧ errors_Is err (ErrInvalidConfig field "cannot be empty") = true
    ∧ (field = "MongoURI" ∧ "mongodb://localhost:27017" = EmptyString
       ∨ field = "DatabaseName" ∧ "mongodb://localhost:27017" ≠ EmptyString
         ∧ EmptyString = EmptyString).
Proof.
  apply (X5_InitializeWithDefaults_rejects_empty_names
           "mongodb://localhost:27017" EmptyString None 0%nat world0).
  by right.
Defined.

Lemma Initialize_outcome c g fuel w :
  ∃ g' err w',
    audit.Initialize c g fuel w = Some ((g', err), w')
    ∧ match err with
      | Some _ => g' = g
      | None => g' = Some (auditService.mk (mongoRepository.mk c))
      end.
Proof.
  unfold audit.Initialize, bind.
  destruct (NewService_outcome c fuel w) as (res & w' & Hrun & Hres & _).
  rewrite Hrun. destruct res as [[s|] [e|]]; try done.
  - subst s. by eexists _, _, _.
  - by eexists _, _, _.
Qed.

(** X6: starting with no default service, after [Initialize] has
    failed every package-level function that needs a service
    ([LogAction], [GetHistory], [GetByID], [GetResourceHistory],
    [GetActorHistory]) still returns [ErrNoServiceConfigured] and
    leaves the world as it is, and [Shutdown] returns nil; after it
    has succeeded they are the methods of a service over a repository
    with the given configuration. *)
Theorem X6_package_functions_follow_Initialize :
  ∀ (c : Config) (fuel : nat) (w : World),
    ∃ defaultService err w',
      audit.Initialize c None fuel w = Some ((defaultService, err), w')
      ∧ (err ≠ None →
           ∀ ctx entry query id resourceType resourceID actorID actorType limit fuel1 w1,
             audit.LogAction defaultService ctx entry fuel1 w1
             = Some (Some ErrNoServiceConfigured, w1)
             ∧ audit.GetHistory defaultService ctx query fuel1 w1
               = Some ((None, Some ErrNoServiceConfigured), w1)
             ∧ audit.GetByID defaultService ctx id fuel1 w1
               = Some ((None, Some ErrNoServiceConfigured), w1)
             ∧ audit.GetResourceHistory defaultService ctx resourceType resourceID limit
                 fuel1 w1
               = Some (([], Some ErrNoServiceConfigured), w1)
             ∧ audit.GetActorHistory defaultService ctx actorID actorType limit fuel1 w1
               = Some (([], Some ErrNoServiceConfigured), w1)
             ∧ audit.Shutdown defaultService ctx fuel1 w1 = Some (None, w1))
      ∧ (err = None →
           let s := auditService.mk (mongoRepository.mk c) in
           (∀ ctx entry, audit.LogAction defaultService ctx entry
                         = auditService.LogAction s ctx entry)
           ∧ (∀ ctx query, audit.GetHistory defaultService ctx query
                           = auditService.GetHistory s ctx query)
           ∧ (∀ ctx id, audit.GetByID defaultService ctx id = auditService.GetByID s ctx id)
           ∧ (∀ ctx, audit.Shutdown defaultService ctx
                     = mongoRepository.Close (mongoRepository.mk c) ctx)).
Proof.
  intros c fuel w.
  destruct (Initialize_outcome c None fuel w) as (g' & err & w' & Hrun & Hg).
  exists g', err, w'. split; [done|]. destruct err as [e|]; subst g'.
  - split; [|done]. intros _. intros. repeat split.
  - split; [done|]. intros _. repeat split.
Qed.

(** ** The builder *)

(** X7: a builder keeps the service it was made with.  One made by
    [NewAuditBuilder] while no default service is set fails on [Log]
    with [ErrNoServiceConfigured], touching nothing, also after a
    default service has been set; the package-level [LogAction] does
    use the service set later. *)
Theorem X7_builder_keeps_the_service_it_was_made_with :
  ∀ (S : Type) (impl : AuditService.Impl S) (s : S) (ctx : context_Context)
    (fuel0 : nat) (w0 : World),
    ∃ (b : AuditBuilder.t S) (w1 : World),
      AuditBuilder.NewAuditBuilder None fuel0 w0 = Some (b, w1)
      ∧ let defaultService := audit.SetDefaultService (Some s) None in
        (∀ fuel w, AuditBuilder.Log ctx b fuel w = Some (Some ErrNoServiceConfigured, w))
        ∧ (∀ (f : AuditEntry → AuditEntry) fuel w,
             AuditBuilder.Log ctx (AuditBuilder.with_entry f b) fuel w
             = Some (Some ErrNoServiceConfigured, w))
        ∧ audit.LogAction defaultService ctx (AuditBuilder.Build b)
          = AuditService.LogAction s ctx (AuditBuilder.Build b).
Proof. intros. eexists _, _. split; [reflexivity|]. repeat split. Qed.

(** The changes [AddChange] appends, call after call. *)
Lemma add_changes_Changes {S} (cs : list FieldChange) (b : AuditBuilder.t S) :
  Entry_Changes (AuditBuilder.Build (add_changes cs b))
  = Entry_Changes (AuditBuilder.Build b) ++ cs.
Proof.
  revert b. induction cs as [|c cs IH]; intros b; simpl.
  - by rewrite app_nil_r.
  - rewrite IH. simpl. rewrite <- app_assoc. by destruct c.
Qed.

Lemma add_changes_rest {S} (cs : list FieldChange) (b : AuditBuilder.t S) :
  add_changes cs b
  = AuditBuilder.with_entry (set_Changes (Entry_Changes (AuditBuilder.entry b) ++ cs)) b.
Proof.
  revert b. induction cs as [|c cs IH]; intros b; simpl.
  - rewrite app_nil_r. by destruct b as [[] ?].
  - rewrite IH. unfold AuditBuilder.AddChange, AuditBuilder.with_entry. simpl.
    rewrite <- app_assoc. by destruct c.
Qed.

(** X8: [AddChange] keeps the order of the calls: after any sequence
    of [AddChange] calls the changes of the entry are the ones it had
    before followed by the added ones in call order, and no other field
    of the entry and not the service has changed. *)
Theorem X8_AddChange_appends_in_call_order :
  ∀ (S : Type) (cs : list FieldChange) (b : AuditBuilder.t S),
    Entry_Changes (AuditBuilder.Build (add_changes cs b))
    = Entry_Changes (AuditBuilder.Build b) ++ cs
    ∧ add_changes cs b
      = AuditBuilder.with_entry
          (set_Changes (Entry_Changes (AuditBuilder.Build b) ++ cs)) b.
Proof.
  intros S cs b. split; [apply add_changes_Changes | apply add_changes_rest].
Qed.

(** X9: [Metadata] records the value under its key, over a value set
    before under the same key, and keeps every other key; it works on
    an entry whose metadata map is nil, which it replaces by a map. *)
Theorem X9_Metadata_last_value_wins :
  ∀ (S : Type) (b : AuditBuilder.t S) (key : string) (value : any),
    ∃ m : gmap string any,
      Entry_Metadata (AuditBuilder.Build (AuditBuilder.Metadata key value b)) = Some m
      ∧ m !! key = Some value
      ∧ (∀ k, k ≠ key →
              m !! k = match Entry_Metadata (AuditBuilder.Build b) with
                       | Some old => old !! k
                       | None => None
                       end)
      ∧ (∀ value', AuditBuilder.Metadata key value (AuditBuilder.Metadata key value' b)
                   = AuditBuilder.Metadata key value b).
Proof.
  intros S b key value. eexists. split; [reflexivity|].
  split; [apply lookup_insert_eq|]. split.
  - intros k Hk. rewrite lookup_insert_ne by done.
    unfold AuditBuilder.Build. by destruct (Entry_Metadata (AuditBuilder.entry b)).
  - intros value'. unfold AuditBuilder.Metadata, AuditBuilder.with_entry, set_Metadata.
    simpl. by rewrite insert_insert_eq.
Qed.

(** X10: [Actor] replaces the whole actor, session included: a session
    id set before it is lost, while [Session] called after it keeps the
    id, type and name and sets the session id, which is what
    [ActorWithSession] does in one call. *)
Theorem X10_Actor_resets_the_session :
  ∀ (S : Type) (b : AuditBuilder.t S) (actorID : string) (actorType : ActorType)
    (actorName sessionID : string),
    Entry_Actor (AuditBuilder.Build
                   (AuditBuilder.Actor actorID actorType actorName
                      (AuditBuilder.Session sessionID b)))
    = mkActor actorID actorType actorName EmptyString
    ∧ Entry_Actor (AuditBuilder.Build
                     (AuditBuilder.Session sessionID
                        (AuditBuilder.Actor actorID actorType actorName b)))
      = mkActor actorID actorType actorName sessionID
    ∧ AuditBuilder.Session sessionID (AuditBuilder.Actor actorID actorType actorName b)
      = AuditBuilder.ActorWithSession actorID actorType actorName sessionID b.
Proof. intros. repeat split. Qed.

(** ** Insert: what is stored *)







(** ** Histories by resource and by actor *)

Lemma matches_two_clauses (k1 k2 : string) (v1 v2 : bsonValue) (e : AuditEntry) :
  k1 ≠ k2 →
  matches (<[k1 := v1]> {[ k2 := v2 ]}) e = clause_ok e k1 v1 && clause_ok e k2 v2.
Proof.
  intros Hne. apply Bool.eq_iff_eq_true.
  rewrite andb_true_iff. unfold matches. rewrite bool_decide_eq_true.
  rewrite map_Forall_insert by (by rewrite lookup_singleton_ne).
  by rewrite map_Forall_singleton.
Qed.

Lemma FindByResource_filter_meaning resourceType resourceID (e : AuditEntry) :
  matches (<["resource.id" := BString resourceID]>
             (<["resource.type" := BString resourceType]> ∅)) e
  = on_resource resourceType resourceID e.
Proof.
  rewrite insert_empty, matches_two_clauses by done.
  unfold on_resource, clause_ok, entry_field. simpl. apply andb_comm.
Qed.

Lemma FindByActor_filter_meaning actorID (actorType : ActorType) (e : AuditEntry) :
  matches (if negb (String.eqb actorType EmptyString)
           then <["actor.type" := BString actorType]> {[ "actor.id" := BString actorID ]}
           else {[ "actor.id" := BString actorID ]}) e
  = by_actor actorID actorType e.
Proof.
  unfold by_actor. destruct (String.eqb actorType EmptyString); simpl.
  - rewrite matches_singleton. unfold clause_ok, entry_field. simpl.
    by rewrite andb_true_r.
  - rewrite matches_two_clauses by done.
    unfold clause_ok, entry_field. simpl. apply andb_comm.
Qed.

(** [find_all] when both of its round trips reach the store. *)
Lemma find_all_calm (flt : bson_M) limit what fuel w :
  calm 2 w →
  ∃ w',
    mongoRepository.find_all ctx_Background flt limit what fuel w
    = Some ((limited limit (newest_first (List.filter (matches flt) (documents w))), None), w')
    ∧ documents w' = documents w.
Proof.
  intros Hcalm. unfold mongoRepository.find_all.
  destruct (round_trip_calm 1 w Hcalm) as (w1 & Hrt1 & Hd1 & Hj1 & Hc1).
  unfold bind at 1. unfold Collection_Find. rewrite Hrt1. cbv beta iota.
  set (w2 := record _ w1).
  destruct (round_trip_calm 0 w2 Hc1) as (w3 & Hrt3 & Hd3 & Hj3 & _).
  unfold bind at 1. unfold Cursor_All. rewrite Hrt3. cbv beta iota.
  rewrite Hd1.
  pose proof (FindByQuery_page limit 0 (List.filter (matches flt) (documents w))) as Hpage.
  simpl in Hpage. rewrite Hpage.
  eexists. split; [reflexivity|]. simpl. rewrite Hd3. subst w2. simpl. done.
Qed.

Lemma List_filter_ext_eq {A} (f g : A → bool) (l : list A) :
  (∀ x, f x = g x) → List.filter f l = List.filter g l.
Proof. intros H. induction l as [|x l IH]; simpl; [done|]. by rewrite H, IH. Qed.

(** X12: when its two round trips reach the store, [FindByResource]
    returns, newest first, the stored entries whose resource type and
    resource id are the ones asked for and no others: all of them when
    [limit] is zero or negative, the [limit] newest when it is
    positive; the collection is left as it was. *)
Theorem X12_FindByResource_returns_the_entries_of_the_resource :
  ∀ (r : mongoRepository.t) (resourceType resourceID : string) (limit : Z)
    (fuel : nat) (w : World),
    calm 2 w →
    let found := List.filter (on_resource resourceType resourceID) (documents w) in
    (∃ w',
       mongoRepository.FindByResource r ctx_Background resourceType resourceID limit fuel w
       = Some ((limited limit (newest_first found), None), w')
       ∧ documents w' = documents w)
    ∧ newest_first found ≡ₚ found
    ∧ StronglySorted not_older (newest_first found)
    ∧ (∀ e, e ∈ found ↔ e ∈ documents w
                          ∧ Resource_Type (Entry_Resource e) = resourceType
                          ∧ Resource_ID (Entry_Resource e) = resourceID).
Proof.
  intros r resourceType resourceID limit fuel w Hcalm found.
  split; [|split; [apply newest_first_perm | split; [apply newest_first_sorted|]]].
  - unfold mongoRepository.FindByResource.
    destruct (find_all_calm
                (<["resource.id" := BString resourceID]>
                   (<["resource.type" := BString resourceType]> ∅))
                limit "failed to find resource history: %w" fuel w Hcalm)
      as (w' & Hrun & Hd).
    exists w'. split; [|done]. cbv zeta. rewrite Hrun. subst found.
    by rewrite (List_filter_ext_eq _ _ _ (FindByResource_filter_meaning _ _)).
  - intros e. subst found. rewrite elem_of_filter_matches. unfold on_resource.
    rewrite andb_true_iff, !String.eqb_eq. done.
Qed.

Lemma X12_witness :
  let found := List.filter (on_resource "session" "s1") (documents two_logins) in
  (∃ w',
     mongoRepository.FindByResource repo0 ctx_Background "session" "s1" 1 0%nat two_logins
     = Some ((limited 1 (newest_first found), None), w')
     ∧ documents w' = documents two_logins)
  ∧ newest_first found ≡ₚ found
  ∧ StronglySorted not_older (newest_first found)
  ∧ (∀ e, e ∈ found ↔ e ∈ documents two_logins
                        ∧ Resource_Type (Entry_Resource e) = "session"
                        ∧ Resource_ID (Entry_Resource e) = "s1").
Proof.
  apply (X12_FindByResource_returns_the_entries_of_the_resource
           repo0 "session" "s1" 1 0%nat two_logins).
  apply Forall_nil_2.
Defined.

(** X13: when its two round trips reach the store, [FindByActor]
    returns, newest first, the stored entries of the actor id asked
    for, of every actor type when the type given is empty and of that
    type only otherwise, and no others: all of them when [limit] is
    zero or negative, the [limit] newest when it is positive; the
    collection is left as it was. *)
Theorem X13_FindByActor_returns_the_entries_of_the_actor :
  ∀ (r : mongoRepository.t) (actorID : string) (actorType : ActorType) (limit : Z)
    (fuel : nat) (w : World),
    calm 2 w →
    let found := List.filter (by_actor actorID actorType) (documents w) in
    (∃ w',
       mongoRepository.FindByActor r ctx_Background actorID actorType limit fuel w
       = Some ((limited limit (newest_first found), None), w')
       ∧ documents w' = documents w)
    ∧ newest_first found ≡ₚ found
    ∧ StronglySorted not_older (newest_first found)
    ∧ (∀ e, e ∈ found ↔ e ∈ documents w
                          ∧ Actor_ID (Entry_Actor e) = actorID
                          ∧ (actorType = EmptyString
                             ∨ Actor_Type (Entry_Actor e) = actorType)).
Proof.
  intros r actorID actorType limit fuel w Hcalm found.
  split; [|split; [apply newest_first_perm | split; [apply newest_first_sorted|]]].
  - unfold mongoRepository.FindByActor.
    destruct (find_all_calm
                (if negb (String.eqb actorType EmptyString)
                 then <["actor.type" := BString actorType]> {[ "actor.id" := BString actorID ]}
                 else {[ "actor.id" := BString actorID ]})
                limit "failed to find actor history: %w" fuel w Hcalm)
      as (w' & Hrun & Hd).
    exists w'. split; [|done]. cbv zeta. rewrite Hrun. subst found.
    by rewrite (List_filter_ext_eq _ _ _ (FindByActor_filter_meaning _ _)).
  - intros e. subst found. rewrite elem_of_filter_matches. unfold by_actor.
    rewrite andb_true_iff, orb_true_iff, !String.eqb_eq. done.
Qed.

Lemma X13_witness :
  let found := List.filter (by_actor "u1" EmptyString) (documents two_logins) in
  (∃ w',
     mongoRepository.FindByActor repo0 ctx_Background "u1" EmptyString 0 0%nat two_logins
     = Some ((limited 0 (newest_first found), None), w')
     ∧ documents w' = documents two_logins)
  ∧ newest_first found ≡ₚ found
  ∧ StronglySorted not_older (newest_first found)
  ∧ (∀ e, e ∈ found ↔ e ∈ documents two_logins
                        ∧ Actor_ID (Entry_Actor e) = "u1"
                        ∧ (EmptyString = EmptyString
                           ∨ Actor_Type (Entry_Actor e) = EmptyString)).
Proof.
  apply (X13_FindByActor_returns_the_entries_of_the_actor
           repo0 "u1" EmptyString 0 0%nat two_logins).
  apply Forall_nil_2.
Defined.

(** ** The remaining methods of the service *)

(** X14: [GetResourceHistory] with an empty resource type, an empty
    resource id or a negative limit returns an error and an empty
    result and leaves the world as it was, whatever the repository is,
    so [FindByResource] is not called; with any other arguments (a
    limit of zero included) it is the repository's [FindByResource] on
    the same arguments. *)
Theorem X14_GetResourceHistory_validates_then_delegates :
  ∀ (R : Type) (impl : AuditRepository.Impl R) (s : auditService.t R)
    (ctx : context_Context) (resourceType resourceID : string) (limit : Z),
    (resourceType = EmptyString ∨ resourceID = EmptyString ∨ limit < 0 →
       ∃ err : error,
         ∀ fuel w,
           auditService.GetResourceHistory s ctx resourceType resourceID limit fuel w
           = Some (([], Some err), w))
    ∧ (resourceType ≠ EmptyString → resourceID ≠ EmptyString → 0 ≤ limit →
         auditService.GetResourceHistory s ctx resourceType resourceID limit
         = AuditRepository.FindByResource (auditService.repo s) ctx
             resourceType resourceID limit).
Proof.
  intros R impl s ctx resourceType resourceID limit.
  unfold auditService.GetResourceHistory.
  destruct (String.eqb_spec resourceType EmptyString) as [Ht|Ht].
  { split; [intros _; by eexists | done]. }
  destruct (String.eqb_spec resourceID EmptyString) as [Hi|Hi].
  { split; [intros _; by eexists | done]. }
  destruct (Z.ltb_spec limit 0) as [Hl|Hl].
  { split; [intros _; by eexists | lia]. }
  split; [|done]. intros [?|[?|?]]; (done || lia).
Qed.

(** X15: [GetActorHistory] with an empty actor id or a negative limit
    returns an error and an empty result and leaves the world as it
    was, whatever the repository and the actor type are, so
    [FindByActor] is not called; the empty actor id is reported first. *)
Theorem X15_GetActorHistory_rejects_empty_actor_and_negative_limit :
  ∀ (R : Type) (impl : AuditRepository.Impl R) (s : auditService.t R)
    (ctx : context_Context) (actorID : string) (actorType : ActorType) (limit : Z),
    (actorID = EmptyString →
       ∀ fuel w,
         auditService.GetActorHistory s ctx actorID actorType limit fuel w
         = Some (([], Some (errors_New "actor ID cannot be empty")), w))
    ∧ (actorID ≠ EmptyString → limit < 0 →
         ∀ fuel w,
           auditService.GetActorHistory s ctx actorID actorType limit fuel w
           = Some (([], Some (errors_New "limit cannot be negative")), w)).
Proof.
  intros R impl s ctx actorID actorType limit. unfold auditService.GetActorHistory.
  split.
  - intros -> fuel w. reflexivity.
  - intros Hid Hl fuel w. apply String_eqb_false_iff in Hid. rewrite Hid.
    by rewrite (proj2 (Z.ltb_lt limit 0) Hl).
Qed.

(** X16: [GetByID] asks the store exactly when the identifier is 24
    hexadecimal characters, and then with one [FindOne] on that
    identifier; for any other string, the empty one included, it
    returns an error without asking the store.  It never changes the
    stored documents. *)
Theorem X16_GetByID_reaches_the_store_iff_well_formed :
  ∀ (r : mongoRepository.t) (ctx : context_Context) (id : string)
    (fuel : nat) (w : World),
    ∃ res w',
      auditService.GetByID (auditService.mk r) ctx id fuel w = Some (res, w')
      ∧ documents w' = documents w
      ∧ (well_formed_id id →
           new_events w w'
           = [EvFindOne {[ "_id" := BObjectID (fst (primitive_ObjectIDFromHex id)) ]}])
      ∧ (¬ well_formed_id id →
           w' = w ∧ fst res = None ∧ is_Some (snd res)).
Proof.
  intros r ctx id fuel w. unfold auditService.GetByID.
  destruct (String.eqb_spec id EmptyString) as [->|Hne].
  { eexists _, _. split; [reflexivity|]. split; [done|]. split.
    - intros [Hlen _]. discriminate.
    - intros _. simpl. by eauto. }
  simpl AuditRepository.FindByID. unfold mongoRepository.FindByID.
  pose proof (ObjectIDFromHex_ok id) as Hok.
  destruct (primitive_ObjectIDFromHex id) as [oid [e|]] eqn:Hparse; simpl in Hok.
  - eexists _, _. split; [reflexivity|]. split; [done|]. split.
    + intros Hwf. apply Hok in Hwf. discriminate.
    + intros _. simpl. by eauto.
  - unfold bind, Collection_FindOne.
    destruct (round_trip_keeps ctx w) as (Hd & Hj & _).
    destruct (round_trip ctx w) as [f w1]. simpl in Hd, Hj.
    assert (Hwf : well_formed_id id) by (by apply Hok).
    destruct f as [e|].
    + destruct (bool_decide (e = mongo_ErrNoDocuments));
        eexists _, _; (split; [reflexivity|]); simpl; (split; [done|]);
        (split; [intros _; apply new_events_app; simpl; by rewrite Hj | done]).
    + destruct (List.filter _ (documents w1)) as [|d rest];
        [rewrite bool_decide_eq_true_2 by done|];
        eexists _, _; (split; [reflexivity|]); simpl; (split; [done|]);
        (split; [intros _; apply new_events_app; simpl; by rewrite Hj | done]).
Qed.

(** ** Queries: what the store is asked *)


(** [FindByQuery] when its three round trips reach the store. *)
Lemma FindByQuery_calm r q fuel w :
  is_int (Query_Offset q) → Z.of_nat (length (documents w)) ≤ max_int → calm 3 w →
  let found := List.filter (matches (mongoRepository.buildFilter q)) (documents w) in
  let from := drop (Z.to_nat (Query_Offset q)) (newest_first found) in
  let entries := limited (Query_Limit q) from in
  ∃ w',
    mongoRepository.FindByQuery r ctx_Background q fuel w
    = Some ((Some (mkAuditQueryResult entries (Z.of_nat (length found))
                     ((0 <? Query_Limit q)
                      && (Query_Offset q + Z.of_nat (length entries)
                          <? Z.of_nat (length found)))), None), w')
    ∧ documents w' = documents w.
Proof.
  intros Hoff Hsize Hcalm found from entries.
  unfold mongoRepository.FindByQuery.
  destruct (round_trip_calm 2 w Hcalm) as (w1 & Hrt1 & Hd1 & Hj1 & Hc1).
  unfold bind at 1. unfold Collection_CountDocuments. rewrite Hrt1. cbv beta iota.
  set (w2 := record _ w1).
  destruct (round_trip_calm 1 w2 Hc1) as (w3 & Hrt3 & Hd3 & Hj3 & Hc3).
  unfold bind at 1. unfold Collection_Find. rewrite Hrt3. cbv beta iota.
  set (w4 := record _ w3).
  destruct (round_trip_calm 0 w4 Hc3) as (w5 & Hrt5 & Hd5 & Hj5 & _).
  unfold bind at 1. unfold Cursor_All. rewrite Hrt5. cbv beta iota.
  rewrite Hd3. subst w2. simpl documents. rewrite Hd1.
  fold found. rewrite (FindByQuery_page (Query_Limit q) (Query_Offset q) found).
  cbv zeta. fold from. change (if 0 <? Query_Limit q then _ else from) with entries.
  assert (is_int (Query_Offset q + Z.of_nat (length entries))) as Hint.
  { apply (offset_plus_returned_is_int _ (length found) _ (length (documents w)));
      [done | done | apply filter_length_bound |].
    subst entries from. unfold limited. destruct (0 <? Query_Limit q);
      rewrite ?length_take, length_drop, newest_first_length; lia. }
  rewrite wrap_int_id by done.
  eexists. split; [reflexivity|].
  simpl. rewrite Hd5. subst w4. simpl. rewrite Hd3. simpl. done.
Qed.

(** ** Queries: pages *)

Lemma length_limited limit (l : list AuditEntry) :
  0 < limit → Z.of_nat (length (limited limit l)) = Z.min limit (Z.of_nat (length l)).
Proof.
  intros Hl. unfold limited. rewrite (proj2 (Z.ltb_lt 0 limit) Hl), length_take. lia.
Qed.

(** X18: for a query that [GetHistory] accepts, with a positive limit
    and when the store answers, [HasMore] tells exactly whether matches
    are left beyond the page: it is true exactly when
    [Offset + Limit < Total]; the page followed by what lies beyond it
    is everything from [Offset] on, and the page is never longer than
    [Limit]. *)
Theorem X18_HasMore_tells_whether_matches_are_left :
  ∀ (r : mongoRepository.t) (q : AuditQuery) (fuel : nat) (w : World),
    ¬ query_defect q → 0 < Query_Limit q →
    is_int (Query_Offset q) → Z.of_nat (length (documents w)) ≤ max_int → calm 3 w →
    let ordered :=
      newest_first (List.filter (matches (mongoRepository.buildFilter q)) (documents w)) in
    ∃ res w',
      auditService.GetHistory (auditService.mk r) ctx_Background q fuel w
      = Some ((Some res, None), w')
      ∧ Result_Total res = Z.of_nat (length ordered)
      ∧ Result_HasMore res
        = bool_decide (Query_Offset q + Query_Limit q < Result_Total res)
      ∧ (Result_HasMore res = true
         ↔ drop (Z.to_nat (Query_Offset q + Query_Limit q)) ordered ≠ [])
      ∧ Result_Entries res ++ drop (Z.to_nat (Query_Offset q + Query_Limit q)) ordered
        = drop (Z.to_nat (Query_Offset q)) ordered
      ∧ Z.of_nat (length (Result_Entries res)) ≤ Query_Limit q.
Proof.
  intros r q fuel w Hok Hl Hoff Hsize Hcalm ordered.
  assert (0 ≤ Query_Offset q) as Ho.
  { destruct (Z.lt_ge_cases (Query_Offset q) 0); [|done].
    exfalso. apply Hok. right. by left. }
  unfold auditService.GetHistory.
  rewrite (proj2 (validateAuditQuery_None q) Hok).
  simpl AuditRepository.FindByQuery.
  destruct (FindByQuery_calm r q fuel w Hoff Hsize Hcalm) as (w' & Hrun & _).
  cbv zeta in Hrun. fold ordered in Hrun.
  assert (length (List.filter (matches (mongoRepository.buildFilter q)) (documents w))
          = length ordered) as Hlen by (symmetry; apply newest_first_length).
  rewrite Hlen in Hrun.
  eexists _, w'. split; [exact Hrun|].
  cbn [Result_Total Result_HasMore Result_Entries].
  set (from := drop (Z.to_nat (Query_Offset q)) ordered).
  assert (Z.of_nat (length (limited (Query_Limit q) from))
          = Z.min (Query_Limit q) (Z.of_nat (length from))) as Hlim
    by (by apply length_limited).
  assert (Z.of_nat (length from)
          = Z.max 0 (Z.of_nat (length ordered) - Query_Offset q)) as Hfrom
    by (subst from; rewrite length_drop; lia).
  split; [done|].
  assert (Hhm : (0 <? Query_Limit q)
                && (Query_Offset q + Z.of_nat (length (limited (Query_Limit q) from))
                    <? Z.of_nat (length ordered))
                = bool_decide (Query_Offset q + Query_Limit q < Z.of_nat (length ordered))).
  { rewrite (proj2 (Z.ltb_lt 0 _) Hl). simpl.
    destruct (Z.ltb_spec (Query_Offset q + Z.of_nat (length (limited (Query_Limit q) from)))
                (Z.of_nat (length ordered))); symmetry;
      [apply bool_decide_eq_true_2 | apply bool_decide_eq_false_2]; lia. }
  split; [exact Hhm|].
  split.
  { rewrite Hhm, bool_decide_eq_true. split.
    - intros Hlt Hnil. apply (f_equal length) in Hnil. rewrite length_drop in Hnil.
      simpl in Hnil. lia.
    - intros Hne. destruct (Z.lt_ge_cases (Query_Offset q + Query_Limit q)
                              (Z.of_nat (length ordered))); [done|].
      exfalso. apply Hne. apply drop_ge. lia. }
  split.
  { unfold limited. rewrite (proj2 (Z.ltb_lt 0 _) Hl). subst from.
    replace (Z.to_nat (Query_Offset q + Query_Limit q))
      with (Z.to_nat (Query_Offset q) + Z.to_nat (Query_Limit q))%nat by lia.
    rewrite <- drop_drop. apply take_drop. }
  lia.
Qed.

Lemma X18_witness :
  let q := query_u1 1 0 in
  let ordered :=
    newest_first (List.filter (matches (mongoRepository.buildFilter q))
                    (documents two_logins)) in
  ∃ res w',
    auditService.GetHistory service0 ctx_Background q 0%nat two_logins
    = Some ((Some res, None), w')
    ∧ Result_Total res = Z.of_nat (length ordered)
    ∧ Result_HasMore res
      = bool_decide (Query_Offset q + Query_Limit q < Result_Total res)
    ∧ (Result_HasMore res = true
       ↔ drop (Z.to_nat (Query_Offset q + Query_Limit q)) ordered ≠ [])
    ∧ Result_Entries res ++ drop (Z.to_nat (Query_Offset q + Query_Limit q)) ordered
      = drop (Z.to_nat (Query_Offset q)) ordered
    ∧ Z.of_nat (length (Result_Entries res)) ≤ Query_Limit q.
Proof.
  apply (X18_HasMore_tells_whether_matches_are_left repo0 (query_u1 1 0) 0%nat two_logins).
  - apply validateAuditQuery_None. reflexivity.
  - simpl. lia.
  - split; by vm_compute.
  - by vm_compute.
  - apply Forall_nil_2.
Defined.

(** X19: called with a negative offset and a positive limit (which
    [GetHistory] never passes on), [FindByQuery] returns the [Limit]
    newest matches as for offset 0, but adds the negative offset into
    its test for more: when the store answers, [HasMore] is then
    always true, also when every match has been returned and when
    there is none. *)
Theorem X19_negative_offset_always_reports_more :
  ∀ (r : mongoRepository.t) (q : AuditQuery) (fuel : nat) (w : World),
    Query_Offset q < 0 → 0 < Query_Limit q →
    is_int (Query_Offset q) → Z.of_nat (length (documents w)) ≤ max_int → calm 3 w →
    let ordered :=
      newest_first (List.filter (matches (mongoRepository.buildFilter q)) (documents w)) in
    ∃ w',
      mongoRepository.FindByQuery r ctx_Background q fuel w
      = Some ((Some (mkAuditQueryResult (take (Z.to_nat (Query_Limit q)) ordered)
                       (Z.of_nat (length ordered)) true), None), w').
Proof.
  intros r q fuel w Ho Hl Hoff Hsize Hcalm ordered.
  destruct (FindByQuery_calm r q fuel w Hoff Hsize Hcalm) as (w' & Hrun & _).
  cbv zeta in Hrun. fold ordered in Hrun.
  assert (length (List.filter (matches (mongoRepository.buildFilter q)) (documents w))
          = length ordered) as Hlen by (symmetry; apply newest_first_length).
  rewrite Hlen in Hrun.
  replace (Z.to_nat (Query_Offset q)) with 0%nat in Hrun by lia.
  rewrite drop_0 in Hrun.
  pose proof (length_limited (Query_Limit q) ordered Hl) as Hlim.
  exists w'. rewrite Hrun. do 5 f_equal.
  - unfold limited. by rewrite (proj2 (Z.ltb_lt 0 _) Hl).
  - rewrite (proj2 (Z.ltb_lt 0 _) Hl). simpl. apply Z.ltb_lt. lia.
Qed.

Lemma X19_witness :
  let q := query_u1 5 (-1) in
  let ordered :=
    newest_first (List.filter (matches (mongoRepository.buildFilter q))
                    (documents two_logins)) in
  ∃ w',
    mongoRepository.FindByQuery repo0 ctx_Background q 0%nat two_logins
    = Some ((Some (mkAuditQueryResult (take (Z.to_nat (Query_Limit q)) ordered)
                     (Z.of_nat (length ordered)) true), None), w').
Proof.
  apply (X19_negative_offset_always_reports_more repo0 (query_u1 5 (-1)) 0%nat two_logins).
  - simpl. lia.
  - simpl. lia.
  - split; by vm_compute.
  - by vm_compute.
  - apply Forall_nil_2.
Defined.

Lemma no_criteria_holds q e : no_criteria q → query_holds q e.
Proof.
  intros (H1 & H2 & H3 & H4 & H5 & H6 & H7 & H8 & H9). unfold query_holds.
  rewrite H1, H2, H3, H4, H5, H6, H7, H8, H9.
  repeat split; (by left) || (intros; discriminate).
Qed.

Lemma filter_all {A} (f : A → bool) (l : list A) :
  (∀ x, f x = true) → List.filter f l = l.
Proof. intros H. induction l as [|x l IH]; simpl; [done|]. by rewrite H, IH. Qed.

(** X20: a query that names no criterion passes validation whenever
    its limit and offset are not negative and selects every stored
    entry: with limit and offset zero and when the store answers,
    [GetHistory] returns the whole collection newest first, its size as
    [Total], and [HasMore] false. *)
Theorem X20_query_without_criteria_selects_everything :
  ∀ (r : mongoRepository.t) (q : AuditQuery) (fuel : nat) (w : World),
    no_criteria q → Query_Limit q = 0 → Query_Offset q = 0 →
    Z.of_nat (length (documents w)) ≤ max_int → calm 3 w →
    ∃ w',
      auditService.GetHistory (auditService.mk r) ctx_Background q fuel w
      = Some ((Some (mkAuditQueryResult (newest_first (documents w))
                       (Z.of_nat (length (documents w))) false), None), w')
      ∧ documents w' = documents w.
Proof.
  intros r q fuel w Hnc Hl Ho Hsize Hcalm.
  assert (¬ query_defect q) as Hok.
  { destruct Hnc as (_ & Hty & _ & Hact & _ & _ & Hs & _).
    unfold query_defect. rewrite Hl, Ho, Hty, Hact, Hs.
    intros [?|[?|[(? & ? & ? & _)|[[? _]|(a & Ha & _)]]]]; try lia; try done.
    by apply not_elem_of_nil in Ha. }
  unfold auditService.GetHistory. rewrite (proj2 (validateAuditQuery_None q) Hok).
  simpl AuditRepository.FindByQuery.
  destruct (FindByQuery_calm r q fuel w) as (w' & Hrun & Hd);
    [rewrite Ho; split; by vm_compute | done | done |].
  cbv zeta in Hrun.
  rewrite (filter_all (matches (mongoRepository.buildFilter q)) (documents w)) in Hrun
    by (intros e; by apply buildFilter_matches, no_criteria_holds).
  rewrite Hl, Ho in Hrun. simpl in Hrun.
  exists w'. split; [|done]. exact Hrun.
Qed.

Lemma X20_witness :
  ∃ w',
    auditService.GetHistory service0 ctx_Background zeroQuery 0%nat two_logins
    = Some ((Some (mkAuditQueryResult (newest_first (documents two_logins))
                     (Z.of_nat (length (documents two_logins))) false), None), w')
    ∧ documents w' = documents two_logins.
Proof.
  apply (X20_query_without_criteria_selects_everything repo0 zeroQuery 0%nat two_logins).
  - by repeat split.
  - reflexivity.
  - reflexivity.
  - by vm_compute.
  - apply Forall_nil_2.
Defined.

(** ** From the builder to the store and back *)



Example NewAuditBuilderWithService_sets_id_and_timestamp :
  (λ '(b, w), (Entry_ID (AuditBuilder.Build b), Entry_Timestamp (AuditBuilder.Build b),
               Entry_Metadata (AuditBuilder.Build b), fresh w)) <$>
    AuditBuilder.NewAuditBuilderWithService (Some service0) 0%nat world0
  = Some (1%N, 1000, Some ∅, 2%N).
Proof. reflexivity. Qed.









(** ** The shorthand methods of the builder *)

Lemma action_shorthand_sets {S} (fa : AuditBuilder.t S → AuditBuilder.t S) b :
  fa ∈ action_shorthands →
  Entry_Action (AuditBuilder.Build (fa b)) ∈ audit_actions
  ∧ Entry_Actor (AuditBuilder.Build (fa b)) = Entry_Actor (AuditBuilder.Build b)
  ∧ Entry_Resource (AuditBuilder.Build (fa b)) = Entry_Resource (AuditBuilder.Build b).
Proof.
  unfold action_shorthands. rewrite !elem_of_cons, elem_of_nil.
  intros [->|[->|[->|[->|[->|[->|[->|[]]]]]]]];
    (split; [by apply valid_action_spec | done]).
Qed.

Lemma actor_shorthand_sets {S} (fu : AuditBuilder.t S → AuditBuilder.t S)
    (id name sid : string) b :
  fu ∈ actor_shorthands id name sid →
  Actor_ID (Entry_Actor (AuditBuilder.Build (fu b))) = id
  ∧ Actor_Name (Entry_Actor (AuditBuilder.Build (fu b))) = name
  ∧ Actor_Type (Entry_Actor (AuditBuilder.Build (fu b))) ∈ actor_types
  ∧ Entry_Action (AuditBuilder.Build (fu b)) = Entry_Action (AuditBuilder.Build b)
  ∧ Entry_Resource (AuditBuilder.Build (fu b)) = Entry_Resource (AuditBuilder.Build b).
Proof.
  unfold actor_shorthands. rewrite !elem_of_cons, elem_of_nil.
  intros [->|[->|[->|[->|[->|[->|[->|[]]]]]]]];
    (split; [done|]; split; [done|]; split; [by apply valid_actor_type_spec | done]).
Qed.

(** X24: every action shorthand ([Create] ... [Export]) sets an action
    of the enumeration and every actor shorthand ([User], [System],
    [Service], [API], [Admin] and the two with a session) sets the
    given id with an actor type of the enumeration, each leaving the
    other two of action, actor and resource as they were;
    so an entry on which one of each has been called with a non-empty
    actor id, and [Resource] with a non-empty type and id, has no
    defect for [LogAction] to reject, whatever else had been set. *)
Theorem X24_shorthands_build_entries_that_validate :
  ∀ (S : Type) (fa fu : AuditBuilder.t S → AuditBuilder.t S)
    (id name sid resourceType resourceID resourceName : string) (b : AuditBuilder.t S),
    fa ∈ action_shorthands → fu ∈ actor_shorthands id name sid →
    id ≠ EmptyString → resourceType ≠ EmptyString → resourceID ≠ EmptyString →
    (Entry_Action (AuditBuilder.Build (fa b)) ∈ audit_actions
     ∧ Entry_Actor (AuditBuilder.Build (fa b)) = Entry_Actor (AuditBuilder.Build b)
     ∧ Entry_Resource (AuditBuilder.Build (fa b)) = Entry_Resource (AuditBuilder.Build b))
    ∧ (Actor_ID (Entry_Actor (AuditBuilder.Build (fu b))) = id
       ∧ Actor_Type (Entry_Actor (AuditBuilder.Build (fu b))) ∈ actor_types
       ∧ Entry_Action (AuditBuilder.Build (fu b)) = Entry_Action (AuditBuilder.Build b)
       ∧ Entry_Resource (AuditBuilder.Build (fu b)) = Entry_Resource (AuditBuilder.Build b))
    ∧ ¬ entry_defect
          (AuditBuilder.Build
             (AuditBuilder.Resource resourceType resourceID resourceName (fu (fa b))))
    ∧ ¬ entry_defect
          (AuditBuilder.Build
             (fa (fu (AuditBuilder.Resource resourceType resourceID resourceName b)))).
Proof.
  intros S fa fu id name sid rt rid rn b Hfa Hfu Hid Hrt Hrid.
  split; [by apply action_shorthand_sets|].
  split.
  { destruct (actor_shorthand_sets fu id name sid b Hfu) as (? & _ & ? & ? & ?). done. }
  split.
  - destruct (actor_shorthand_sets fu id name sid (fa b) Hfu) as (Hi & _ & Hty & Hact & _).
    destruct (action_shorthand_sets fa b Hfa) as (Ha & _).
    unfold entry_defect. cbn [AuditBuilder.Build AuditBuilder.Resource AuditBuilder.with_entry
      AuditBuilder.entry set_Resource Entry_Action Entry_Actor Entry_Resource
      Resource_Type Resource_ID].
    unfold AuditBuilder.Build in *. rewrite Hi, Hact.
    intros [He|[He|[He|[He|[He|[He|He]]]]]]; try done.
    + rewrite He in Ha. by apply valid_action_spec in Ha.
    + rewrite He in Hty. by apply valid_actor_type_spec in Hty.
  - set (b1 := AuditBuilder.Resource rt rid rn b).
    destruct (actor_shorthand_sets fu id name sid b1 Hfu) as (Hi & _ & Hty & _ & Hres).
    destruct (action_shorthand_sets fa (fu b1) Hfa) as (Ha & Hact & Hres').
    unfold entry_defect. rewrite Hact, Hres', Hres, Hi.
    intros [He|[He|[He|[He|[He|[He|He]]]]]]; try done.
    + rewrite He in Ha. by apply valid_action_spec in Ha.
    + rewrite He in Hty. by apply valid_actor_type_spec in Hty.
Qed.

Lemma X24_witness :
  let b : AuditBuilder.t unit := AuditBuilder.mk zeroEntry None in
  (Entry_Action (AuditBuilder.Build (AuditBuilder.Login b)) ∈ audit_actions
   ∧ Entry_Actor (AuditBuilder.Build (AuditBuilder.Login b))
     = Entry_Actor (AuditBuilder.Build b)
   ∧ Entry_Resource (AuditBuilder.Build (AuditBuilder.Login b))
     = Entry_Resource (AuditBuilder.Build b))
  ∧ (Actor_ID (Entry_Actor (AuditBuilder.Build (AuditBuilder.User "u1" "Ann" b))) = "u1"
     ∧ Actor_Type (Entry_Actor (AuditBuilder.Build (AuditBuilder.User "u1" "Ann" b)))
       ∈ actor_types
     ∧ Entry_Action (AuditBuilder.Build (AuditBuilder.User "u1" "Ann" b))
       = Entry_Action (AuditBuilder.Build b)
     ∧ Entry_Resource (AuditBuilder.Build (AuditBuilder.User "u1" "Ann" b))
       = Entry_Resource (AuditBuilder.Build b))
  ∧ ¬ entry_defect
        (AuditBuilder.Build
           (AuditBuilder.Resource "session" "s1" EmptyString
              (AuditBuilder.User "u1" "Ann" (AuditBuilder.Login b))))
  ∧ ¬ entry_defect
        (AuditBuilder.Build
           (AuditBuilder.Login
              (AuditBuilder.User "u1" "Ann"
                 (AuditBuilder.Resource "session" "s1" EmptyString b)))).
Proof.
  intros b.
  apply (X24_shorthands_build_entries_that_validate unit AuditBuilder.Login
           (AuditBuilder.User "u1" "Ann") "u1" "Ann" EmptyString "session" "s1" EmptyString b).
  - unfold action_shorthands. rewrite !elem_of_cons. tauto.
  - unfold actor_shorthands. rewrite !elem_of_cons. tauto.
  - discriminate.
  - discriminate.
  - discriminate.
Defined.

(** ** Insert through a constructed repository *)






(** X26: with a negative [MaxRetries] (which [Validate] refuses, but
    which a caller can still set on the configuration the repository
    shares) [Insert] makes no write at all: it stores nothing, asks
    nothing of the store, and returns an error that wraps no cause. *)
Theorem X26_Insert_with_negative_MaxRetries_never_writes :
  ∀ (r : mongoRepository.t) (ctx : context_Context) (entry : AuditEntry)
    (fuel : nat) (w : World),
    MaxRetries (mongoRepository.config r) < 0 →
    ∃ w',
      mongoRepository.Insert r ctx entry (S fuel) w
      = Some (Some (Errorf_dw insert_failed_format
                      (wrap_int (MaxRetries (mongoRepository.config r) + 1)) None), w')
      ∧ documents w' = documents w
      ∧ new_events w w' = [].
Proof.
  intros r ctx entry fuel w Hneg. rewrite Insert_unfold.
  rewrite Insert_loop_exit by lia. eexists. split; [reflexivity|].
  rewrite after_defaults_documents. split; [done|].
  apply new_events_app. by rewrite after_defaults_journal, app_nil_r.
Qed.

Lemma X26_witness :
  let r := mongoRepository.mk (config_retry (-1) 500) in
  ∃ w',
    mongoRepository.Insert r ctx_Background login_entry 1%nat world0
    = Some (Some (Errorf_dw insert_failed_format
                    (wrap_int (MaxRetries (mongoRepository.config r) + 1)) None), w')
    ∧ documents w' = documents world0
    ∧ new_events world0 w' = [].
Proof.
  intros r.
  apply (X26_Insert_with_negative_MaxRetries_never_writes r ctx_Background login_entry
           0%nat world0).
  simpl. lia.
Defined.

(** ** Histories: what the store is asked *)


